(** * gh-pr-check: the check aggregator and the monitor loop

    A shallow embedding of the three entry points of the repository
    ([index.js], [github-pr-monitor.js] and a third, unnamed variant) and
    the properties of their status classifier, snapshot aggregator and
    poll loop.

    Conventions.
    - JavaScript strings are [string]s (bytes of their UTF-8 encoding).
      [toLowerCase] and [toUpperCase] map the ASCII letters and leave every
      other byte alone.  The seven state words of the program are ASCII and
      contain no [k], so no string with a non-ASCII code point lower-cases
      to one of them in JavaScript either.
    - The outside world (the [gh] command line, the clock, the interactive
      selection of a pull request) is an explicit input; what the program
      does to the outside world is a list of [Event]s. *)

From Stdlib Require Import String Ascii List ZArith Lia Bool Arith DecimalString.
From Stdlib Require DecimalPos DecimalZ.
Import ListNotations.
Local Open Scope string_scope.

(** ** JavaScript strings *)

Definition nl : string := String (ascii_of_nat 10) EmptyString.

Definition isUpper (c : ascii) : bool :=
  ((Nat.leb 65 (nat_of_ascii c)) && (Nat.leb (nat_of_ascii c) 90))%bool.

Definition isLower (c : ascii) : bool :=
  ((Nat.leb 97 (nat_of_ascii c)) && (Nat.leb (nat_of_ascii c) 122))%bool.

Definition isDigit (c : ascii) : bool :=
  ((Nat.leb 48 (nat_of_ascii c)) && (Nat.leb (nat_of_ascii c) 57))%bool.

Definition lowerChar (c : ascii) : ascii :=
  if isUpper c then ascii_of_nat (nat_of_ascii c + 32) else c.

Definition upperChar (c : ascii) : ascii :=
  if isLower c then ascii_of_nat (nat_of_ascii c - 32) else c.

Fixpoint mapString (f : ascii -> ascii) (s : string) : string :=
  match s with
  | EmptyString => EmptyString
  | String c rest => String (f c) (mapString f rest)
  end.

Definition toLowerCase : string -> string := mapString lowerChar.

(** Only the status text printed beside a check uses [toUpperCase]; for a
    status with letters outside ASCII that text differs from what
    [String.prototype.toUpperCase] prints, and no property below is about
    it. *)
Definition toUpperCase : string -> string := mapString upperChar.

(** [Array.prototype.includes] on an array of strings. *)
Definition includes (xs : list string) (s : string) : bool :=
  existsb (String.eqb s) xs.

(** [Array.prototype.join]. *)
Definition join (sep : string) (xs : list string) : string :=
  String.concat sep xs.

(** [`${n}`] for an integer [n]. *)
Definition showZ (n : Z) : string := NilZero.string_of_int (Z.to_int n).
Definition showNat (n : nat) : string := showZ (Z.of_nat n).

(** [x || d] for an optional string: [undefined], [null] and the empty string
    are falsy. *)
Definition truthy (o : option string) : bool :=
  match o with
  | Some (String _ _) => true
  | _ => false
  end.

Definition orElse (o : option string) (d : string) : string :=
  match o with
  | Some (String c rest) => String c rest
  | _ => d
  end.

(** ** The three entry points *)

Inductive EntryPoint : Type :=
| IndexJs
| GithubPrMonitorJs
| Part000.

(** The pictographs of the string literals.  [github-pr-monitor.js] holds
    them in a different byte encoding from the other two files. *)
Inductive Pictograph : Type :=
| CheckMark | CrossMark | YellowCircle | WhiteCircle | QuestionMark
| BarChart | Siren | PartyPopper | Stopwatch.

Definition glyphUtf8 (p : Pictograph) : string :=
  match p with
  | CheckMark => "✅"
  | CrossMark => "❌"
  | YellowCircle => "🟡"
  | WhiteCircle => "⚪"
  | QuestionMark => "❓"
  | BarChart => "📊"
  | Siren => "🚨"
  | PartyPopper => "🎉"
  | Stopwatch => "⏱️"
  end.

Definition glyphRecoded (p : Pictograph) : string :=
  match p with
  | CheckMark => "âœ…"
  | CrossMark => "âŒ"
  | YellowCircle => "ðŸŸ¡"
  | WhiteCircle => "âšª"
  | QuestionMark => "â“"
  | BarChart => "ðŸ“Š"
  | Siren => "ðŸš¨"
  | PartyPopper => "ðŸŽ‰"
  | Stopwatch => "â±ï¸"
  end.

Definition bellRecoded : string := "ðŸ””".

Definition glyph (v : EntryPoint) (p : Pictograph) : string :=
  match v with
  | GithubPrMonitorJs => glyphRecoded p
  | IndexJs | Part000 => glyphUtf8 p
  end.

(** ** Status classifier *)

(** [getStatusEmoji]: a [switch] on the lower-cased status. *)
Definition getStatusEmoji (v : EntryPoint) (status : string) : string :=
  let s := toLowerCase status in
  if (s =? "success") || (s =? "completed") then glyph v CheckMark
  else if (s =? "failure") || (s =? "failed") then glyph v CrossMark
  else if (s =? "pending") || (s =? "in_progress") then glyph v YellowCircle
  else if s =? "cancelled" then glyph v WhiteCircle
  else glyph v QuestionMark.

Inductive Classification : Type :=
| Pending
| Failure
| Success.

(** The [if] / [else if] chain under the comment [// Categorize checks] of
    [checkAllChecksStatus]; [None] when no branch is taken. *)
Definition classify (status : string) : option Classification :=
  if includes ["pending"; "in_progress"] (toLowerCase status) then Some Pending
  else if includes ["failure"; "failed"; "cancelled"] (toLowerCase status)
       then Some Failure
  else if includes ["success"; "completed"] (toLowerCase status) then Some Success
  else None.

(** ** Checks, events and the result of one poll *)

(** One element of the array printed by [gh pr checks --json
    name,state,description,link]; a field is [None] when it is absent or
    [null]. *)
Record Check : Type := mkCheck {
  state : option string;
  name : option string;
  description : option string;
  link : option string
}.

Inductive Event : Type :=
| ConsoleLog (line : string)
| ConsoleError (line : string)
| ExecSync (command : string)
| NotifierNotify (title message : string) (sound wait : bool) (timeout : Z)
| SetTimeout (ms : Z)
| ProcessExit (code : Z).

Module Summary.
Record t : Type := mk {
  total : nat;
  pending : list string;
  completed : list string;
  failed : list string
}.
End Summary.

Module Result.
Record t : Type := mk {
  completed : bool;
  hasFailures : bool;
  checks : list Check;
  prNumber : string;
  summary : Summary.t
}.
End Result.

(** What [checkAllChecksStatus] returns: [{ error: true }] or the result
    object. *)
Inductive Outcome : Type :=
| ErrorResult
| CheckResult (r : Result.t).

(** ** Snapshot aggregator: the body of [checks.forEach] *)

(** The [let] variables the callback updates. *)
Record Tally : Type := mkTally {
  allCompleted : bool;
  hasFailures : bool;
  pendingChecks : list string;
  completedChecks : list string;
  failedChecks : list string
}.

Definition initialTally : Tally :=
  mkTally true false [] [] [].

Definition categorize (status context : string) (t : Tally) : Tally :=
  match classify status with
  | Some Pending =>
      mkTally false (hasFailures t)
              (pendingChecks t ++ [context])%list (completedChecks t) (failedChecks t)
  | Some Failure =>
      mkTally (allCompleted t) true
              (pendingChecks t) (completedChecks t) (failedChecks t ++ [context])%list
  | Some Success =>
      mkTally (allCompleted t) (hasFailures t)
              (pendingChecks t) (completedChecks t ++ [context])%list (failedChecks t)
  | None => t
  end.

Definition statusOf (check : Check) : string := orElse (state check) "unknown".
Definition contextOf (check : Check) : string := orElse (name check) "Unknown Check".

(** The lines one check prints. *)
Definition checkLines (v : EntryPoint) (showOutput verbose : bool) (check : Check)
  : list Event :=
  let status := statusOf check in
  let context := contextOf check in
  let statusEmoji := getStatusEmoji v status in
  if showOutput then
    (ConsoleLog (statusEmoji ++ " " ++ context ++ ": " ++ toUpperCase status)
     :: (if verbose then
           ((if truthy (description check)
             then [ConsoleLog ("  Description: " ++ orElse (description check) EmptyString)]
             else [])
            ++ (if truthy (link check)
                then [ConsoleLog ("  Details: " ++ orElse (link check) EmptyString)]
                else [])
            ++ [ConsoleLog EmptyString])%list
         else []))
  else [].

Definition visit (v : EntryPoint) (showOutput verbose : bool)
           (acc : Tally * list Event) (check : Check) : Tally * list Event :=
  (categorize (statusOf check) (contextOf check) (fst acc),
   (snd acc ++ checkLines v showOutput verbose check)%list).

Definition forEachCheck (v : EntryPoint) (showOutput verbose : bool)
           (checks : list Check) (acc : Tally * list Event) : Tally * list Event :=
  fold_left (visit v showOutput verbose) checks acc.

(** The loop without its printing. *)
Definition tallyOf (checks : list Check) (t : Tally) : Tally :=
  fold_left (fun t c => categorize (statusOf c) (contextOf c) t) checks t.

(** The part of [checkAllChecksStatus] after the checks are parsed: the
    aggregator proper.  [prNumber] was extracted from the URL before. *)
Definition aggregate (v : EntryPoint) (showOutput verbose : bool)
           (prNumber : string) (checks : list Check) : list Event * Outcome :=
  match checks with
  | [] =>
      ((if showOutput then [ConsoleLog "No checks found for this PR"] else []),
       ErrorResult)
  | _ :: _ =>
      let header :=
        if showOutput
        then [ConsoleLog (nl ++ "All Checks Status:"); ConsoleLog "=================="]
        else [] in
      let '(t, out) := forEachCheck v showOutput verbose checks (initialTally, header) in
      (out,
       CheckResult
         (Result.mk (allCompleted t) (hasFailures t) checks prNumber
            (Summary.mk (length checks) (pendingChecks t) (completedChecks t)
               (failedChecks t))))
  end.

(** ** The pull-request reference *)

Fixpoint takeDigits (s : string) : string :=
  match s with
  | EmptyString => EmptyString
  | String c rest => if isDigit c then String c (takeDigits rest) else EmptyString
  end.

(** The regular expression [/\/pull\/(\d+)/] tried at the start of [s]; the
    result is the capture group. *)
Definition matchPullHere (s : string) : option string :=
  if prefix "/pull/" s then
    match takeDigits (substring 6 (String.length s - 6) s) with
    | EmptyString => None
    | String c rest => Some (String c rest)
    end
  else None.

(** [prUrl.match(/\/pull\/(\d+)/)]: the leftmost match; [match[1]]. *)
Fixpoint matchPull (s : string) : option string :=
  match s with
  | EmptyString => None
  | String _ rest =>
      match matchPullHere s with
      | Some digits => Some digits
      | None => matchPull rest
      end
  end.

(** ** One poll: [checkAllChecksStatus] *)

(** [JSON.parse(execSync(...))]: an exception with its message, or the parsed
    array. *)
Inductive ExecOutcome : Type :=
| Throws (message : string)
| Parsed (checks : list Check).

(** The interactive choice of a pull request ([getOpenPRs], [selectPR],
    [promptUserForPR], [promptForPRUrl]) is a collaborator: it ends the
    process, or yields a URL, or yields nothing.  Its own console output is
    left out. *)
Inductive Selection : Type :=
| Selected (url : option string)
| SelectionExits (code : Z).

Record PollInput : Type := mkPollInput {
  selection : Selection;
  gh : ExecOutcome
}.

Inductive PollReturn : Type :=
| Exits (code : Z)
| Returns (o : Outcome).

Definition invalidUrlMessage : string :=
  "Invalid PR URL format. Expected format: https://github.com/owner/repo/pull/123".

(** The block guarded by [if (!prUrl)]: the URL to go on with, or what the
    function returns at once.  In the two files that choose a pull request
    interactively, the event list holds only the outcome of the choice:
    what [getOpenPRs], [selectPR] and the prompts print and run on the way
    ([console.log] lines, [gh pr list]) is not in it, whatever
    [showOutput] is; [discover] below gives those lines.  With a URL given
    on the command line the block is skipped and nothing is left out. *)
Definition resolvePrUrl (v : EntryPoint) (prUrl : option string) (w : PollInput)
  : (list Event * PollReturn) + string :=
  if truthy prUrl then inr (orElse prUrl EmptyString)
  else
    match v with
    | IndexJs =>
        inl ([ConsoleError "Please provide a PR URL";
              ConsoleLog "Usage: node githubcheck2.js <PR_URL>";
              ConsoleLog "Example: node githubcheck2.js https://github.com/owner/repo/pull/123"],
             Returns ErrorResult)
    | GithubPrMonitorJs | Part000 =>
        match selection w with
        | SelectionExits code => inl ([ProcessExit code], Exits code)
        | Selected url =>
            if truthy url then inr (orElse url EmptyString)
            else inl ([], Returns ErrorResult)
        end
    end.

Definition checkAllChecksStatus (v : EntryPoint) (prUrl : option string)
           (showOutput verbose : bool) (w : PollInput) : list Event * PollReturn :=
  match resolvePrUrl v prUrl w with
  | inl early => early
  | inr url =>
      match matchPull url with
      | None => ([ConsoleError invalidUrlMessage], Returns ErrorResult)
      | Some prNumber =>
          let intro :=
            if showOutput
            then [ConsoleLog ("Checking all checks status for PR #" ++ prNumber ++ "...")]
            else [] in
          let exec :=
            ExecSync ("gh pr checks " ++ url ++ " --json name,state,description,link") in
          match gh w with
          | Throws message =>
              ((intro ++
                [exec;
                 ConsoleError ("Error checking status: " ++ message);
                 ConsoleError "Make sure you have gh CLI installed and authenticated"])%list,
               Returns ErrorResult)
          | Parsed checks =>
              let '(out, o) := aggregate v showOutput verbose prNumber checks in
              ((intro ++ exec :: out)%list, Returns o)
          end
      end
  end.

(** ** Notifications and durations *)

Definition sendNotification (v : EntryPoint) (message type : string) : list Event :=
  let title :=
    match v with
    | IndexJs | Part000 =>
        if type =? "success"
        then "All Checks Complete " ++ glyph v CheckMark
        else "Checks Failed " ++ glyph v CrossMark
    | GithubPrMonitorJs =>
        if type =? "success" then "All Checks Complete " ++ glyph v CheckMark
        else if type =? "failure" then "Checks Failed " ++ glyph v CrossMark
        else if type =? "repeat" then "PR Status Update " ++ bellRecoded
        else "PR Monitor"
    end in
  [NotifierNotify title message true false 10].

(** Times are milliseconds since the epoch; [%] is JavaScript's remainder
    and [Math.floor] of a quotient is [Z.div]. *)
Definition formatDuration (startTime endTime : Z) : string :=
  let durationMs := (endTime - startTime)%Z in
  let minutes := (durationMs / 60000)%Z in
  let seconds := (Z.rem durationMs 60000 / 1000)%Z in
  if (0 <? minutes)%Z
  then showZ minutes ++ "m " ++ showZ seconds ++ "s"
  else showZ seconds ++ "s".

(** ** The monitor loop *)

(** What a run of [monitorAllChecksStatus] meets: the clock readings at
    each [new Date()], the locale's rendering of a time, and the input of
    each poll (polls are numbered from 1, as [checkCount] is). *)
Record World : Type := mkWorld {
  startTime : Z;
  headerTime : nat -> Z;
  endTime : nat -> Z;
  notificationTime : nat -> Z;
  toLocaleTimeString : Z -> string;
  poll : nat -> PollInput
}.

Inductive Machine : Type :=
| Polling (checkCount : nat)
| Notifying (result : Result.t) (completionDuration completionType : string)
            (notificationCount : nat)
| Returned
| Exited (code : Z).

Definition interval : Z := 20000.

Definition waitForNextCheck : list Event :=
  [ConsoleLog "Waiting 20 seconds before next check..."; SetTimeout interval].

Definition summaryLines (v : EntryPoint) (result : Result.t) : list Event :=
  let s := Result.summary result in
  ([ConsoleLog (nl ++ glyph v BarChart ++ " Summary:");
    ConsoleLog ("   Total checks: " ++ showNat (Summary.total s))]
   ++ (if (0 <? List.length (Summary.completed s))%nat
       then [ConsoleLog ("   " ++ glyph v CheckMark ++ " Completed: "
                         ++ showNat (List.length (Summary.completed s)))]
       else [])
   ++ (if (0 <? List.length (Summary.failed s))%nat
       then [ConsoleLog ("   " ++ glyph v CrossMark ++ " Failed: "
                         ++ showNat (List.length (Summary.failed s)))]
       else []))%list.

Definition completionMessage (hasFailures : bool) (prNumber : string) : string :=
  if hasFailures
  then "All checks completed with failures for PR #" ++ prNumber
  else "All checks completed successfully for PR #" ++ prNumber.

Definition completionType (hasFailures : bool) : string :=
  if hasFailures then "failure" else "success".

Definition repeatBanner (v : EntryPoint) : list Event :=
  match v with
  | GithubPrMonitorJs =>
      [ConsoleLog (nl ++ bellRecoded ++
         " Checks completed! Now sending notifications every 20 seconds until you close the program...");
       ConsoleLog ("Press Ctrl+C to stop" ++ nl)]
  | IndexJs | Part000 => []
  end.

(** The branch [else if (result.completed)] up to its [break]. *)
Definition completedBranch (v : EntryPoint) (duration : string) (checkCount : nat)
           (result : Result.t) : list Event * Machine :=
  let s := Result.summary result in
  let message :=
    completionMessage (Result.hasFailures result) (Result.prNumber result) in
  let timeLine :=
    ConsoleLog (glyph v Stopwatch ++ "  Total time: " ++ duration ++ " ("
                ++ showNat checkCount ++ " checks)") in
  let announce :=
    if Result.hasFailures result then
      ([ConsoleLog (nl ++ glyph v Siren ++ " " ++ message); timeLine]
       ++ (if (0 <? List.length (Summary.failed s))%nat
           then [ConsoleLog (glyph v CrossMark ++ " Failed checks: "
                             ++ join ", " (Summary.failed s))]
           else []))%list
    else [ConsoleLog (nl ++ glyph v PartyPopper ++ " " ++ message); timeLine] in
  ((summaryLines v result ++ announce
    ++ sendNotification v (message ++ nl ++ "Completed in " ++ duration)
         (completionType (Result.hasFailures result))
    ++ repeatBanner v)%list,
   match v with
   | GithubPrMonitorJs =>
       Notifying result duration (completionType (Result.hasFailures result)) 0
   | IndexJs | Part000 => Returned
   end).

(** The final [else] branch: the progress view. *)
Definition progressLines (v : EntryPoint) (result : Result.t) : list Event :=
  let s := Result.summary result in
  ([ConsoleLog (glyph v BarChart ++ " Progress: "
                ++ showNat (List.length (Summary.completed s)) ++ "/"
                ++ showNat (Summary.total s) ++ " checks complete")]
   ++ (if (0 <? List.length (Summary.pending s))%nat
       then [ConsoleLog (glyph v YellowCircle ++ " Still pending: "
                         ++ join ", " (Summary.pending s))]
       else [])
   ++ (if (0 <? List.length (Summary.failed s))%nat
       then [ConsoleLog (glyph v CrossMark ++ " Failed: "
                         ++ join ", " (Summary.failed s))]
       else []))%list.

(** The branch [if (result.error)]. *)
Definition errorBranch (v : EntryPoint) (checkCount : nat) : list Event * Machine :=
  match v with
  | GithubPrMonitorJs =>
      ([ConsoleLog "Error occurred true"; ProcessExit 1], Exited 1)
  | IndexJs | Part000 =>
      ((ConsoleLog "Error occurred, will retry in 20 seconds..." :: waitForNextCheck)%list,
       Polling checkCount)
  end.

(** The line that opens a poll. *)
Definition pollHeader (w : World) (checkCount : nat) : Event :=
  ConsoleLog (nl ++ "--- Check #" ++ showNat checkCount ++ " ("
              ++ toLocaleTimeString w (headerTime w checkCount) ++ ") ---").

(** One turn of [while (true)] in [monitorAllChecksStatus]. *)
Definition pollOnce (v : EntryPoint) (prUrl : option string) (verbose : bool)
           (w : World) (previous : nat) : list Event * Machine :=
  let checkCount := S previous in
  let header := pollHeader w checkCount in
  let '(out, ret) := checkAllChecksStatus v prUrl true verbose (poll w checkCount) in
  let '(after, next) :=
    match ret with
    | Exits code => ([], Exited code)
    | Returns ErrorResult => errorBranch v checkCount
    | Returns (CheckResult result) =>
        if Result.completed result then
          completedBranch v (formatDuration (startTime w) (endTime w checkCount))
                          checkCount result
        else ((progressLines v result ++ waitForNextCheck)%list, Polling checkCount)
    end in
  ((header :: out ++ after)%list, next).

(** The [message] built in each turn of [startContinuousNotifications]. *)
Definition repeatMessage (v : EntryPoint) (result : Result.t)
           (completionDuration completionType : string) : string :=
  (if completionType =? "success"
   then "All checks completed successfully for PR #" ++ Result.prNumber result
   else "All checks completed with failures for PR #" ++ Result.prNumber result)
  ++ (nl ++ "Completed in " ++ completionDuration)
  ++ (if (0 <? List.length (Summary.failed (Result.summary result)))%nat
      then nl ++ glyph v CrossMark ++ " Failed: "
           ++ join ", " (Summary.failed (Result.summary result))
      else EmptyString).

(** One turn of [while (true)] in [startContinuousNotifications]
    ([github-pr-monitor.js] only). *)
Definition notifyOnce (v : EntryPoint) (w : World) (result : Result.t)
           (completionDuration completionType : string) (previous : nat)
  : list Event * Machine :=
  let notificationCount := S previous in
  let currentTime := toLocaleTimeString w (notificationTime w notificationCount) in
  let message := repeatMessage v result completionDuration completionType in
  ((ConsoleLog (bellRecoded ++ " Notification #" ++ showNat notificationCount
                ++ " sent at " ++ currentTime)
    :: sendNotification v message "repeat" ++ [SetTimeout interval])%list,
   Notifying result completionDuration completionType notificationCount).

Definition step (v : EntryPoint) (prUrl : option string) (verbose : bool) (w : World)
           (m : Machine) : list Event * Machine :=
  match m with
  | Polling checkCount => pollOnce v prUrl verbose w checkCount
  | Notifying result duration type count => notifyOnce v w result duration type count
  | Returned => ([], Returned)
  | Exited code => ([], Exited code)
  end.

(** [fuel] turns of the two loops, starting in state [m]. *)
Fixpoint run (v : EntryPoint) (prUrl : option string) (verbose : bool) (w : World)
         (fuel : nat) (m : Machine) : list Event * Machine :=
  match fuel with
  | O => ([], m)
  | S fuel' =>
      let '(out, m') := step v prUrl verbose w m in
      let '(rest, final) := run v prUrl verbose w fuel' m' in
      ((out ++ rest)%list, final)
  end.

Definition monitorAllChecksStatus (v : EntryPoint) (prUrl : option string)
           (verbose : bool) (w : World) (fuel : nat) : list Event * Machine :=
  let '(out, final) := run v prUrl verbose w fuel (Polling 0) in
  (([ConsoleLog "Starting PR checks monitoring...";
     ConsoleLog "Checking every 20 seconds until all checks complete";
     ConsoleLog ("Started at: " ++ toLocaleTimeString w (startTime w));
     ConsoleLog ("Press Ctrl+C to stop" ++ nl)] ++ out)%list,
   final).

(** ** The command line *)

Definition helpLines : list Event :=
  [ConsoleLog "GitHub PR Monitor - Monitor GitHub PR checks with notifications";
   ConsoleLog EmptyString;
   ConsoleLog "Usage:";
   ConsoleLog "  node github-pr-monitor.js [PR_URL] [OPTIONS]";
   ConsoleLog EmptyString;
   ConsoleLog "Arguments:";
   ConsoleLog "  PR_URL    Optional. GitHub PR URL (e.g., https://github.com/owner/repo/pull/123)";
   ConsoleLog "            If not provided, will search for open PRs in the current repository";
   ConsoleLog EmptyString;
   ConsoleLog "Options:";
   ConsoleLog "  --single    Run a single check instead of continuous monitoring";
   ConsoleLog "  --verbose   Show detailed information about each check";
   ConsoleLog "  --help, -h  Show this help message";
   ConsoleLog EmptyString;
   ConsoleLog "Examples:";
   ConsoleLog "  node github-pr-monitor.js";
   ConsoleLog "  node github-pr-monitor.js --single";
   ConsoleLog "  node github-pr-monitor.js https://github.com/owner/repo/pull/123";
   ConsoleLog "  node github-pr-monitor.js https://github.com/owner/repo/pull/123 --verbose";
   ProcessExit 0].

(** Single mode: one call of [checkAllChecksStatus] whose result is
    dropped; the script then runs off its end. *)
Definition singleMode (v : EntryPoint) (prUrl : option string) (verbose : bool)
           (w : PollInput) : list Event * Machine :=
  let '(out, ret) := checkAllChecksStatus v prUrl true verbose w in
  (out,
   match ret with
   | Exits code => Exited code
   | Returns _ => Returned
   end).

(** The top level of the scripts.  [argv] is [process.argv]: the
    interpreter, the script, then the arguments. *)
Definition main (v : EntryPoint) (argv : list string) (w : World) (fuel : nat)
  : list Event * Machine :=
  let prUrl := nth_error argv 2 in
  let singleCheck := includes argv "--single" in
  let verbose := includes argv "--verbose" in
  let help := includes argv "--help" || includes argv "-h" in
  let body :=
    if singleCheck then singleMode v prUrl verbose (poll w 1)
    else monitorAllChecksStatus v prUrl verbose w fuel in
  match v with
  | IndexJs => body
  | GithubPrMonitorJs | Part000 => if help then (helpLines, Exited 0) else body
  end.

(** The exit code of the process once it has ended: the argument of
    [process.exit], or 0 when the script ran off its end. *)
Definition exitCode (m : Machine) : option Z :=
  match m with
  | Exited code => Some code
  | Returned => Some 0%Z
  | Polling _ | Notifying _ _ _ _ => None
  end.

(** ** What the specification calls a snapshot *)

Definition statusKnown (check : Check) : bool :=
  match classify (statusOf check) with
  | Some _ => true
  | None => false
  end.

Definition classifiedAs (c : Classification) (check : Check) : bool :=
  match classify (statusOf check), c with
  | Some Pending, Pending | Some Failure, Failure | Some Success, Success => true
  | _, _ => false
  end.

(** The names of the checks of one class, in input order, as the
    specification words the partition. *)
Definition namesOf (c : Classification) (checks : list Check) : list string :=
  map contextOf (filter (classifiedAs c) checks).

Definition bucketSizes (r : Result.t) : nat :=
  (List.length (Summary.pending (Result.summary r))
   + List.length (Summary.completed (Result.summary r))
   + List.length (Summary.failed (Result.summary r)))%nat.

(** Two characters that are equal or are the two cases of one ASCII
    letter. *)
Definition sameLetter (c d : ascii) : bool :=
  Ascii.eqb c d
  || (isUpper c && (nat_of_ascii d =? nat_of_ascii c + 32)%nat)
  || (isUpper d && (nat_of_ascii c =? nat_of_ascii d + 32)%nat).

(** Two strings that differ only in letter case. *)
Fixpoint sameUpToCase (s t : string) : bool :=
  match s, t with
  | EmptyString, EmptyString => true
  | String c s', String d t' => sameLetter c d && sameUpToCase s' t'
  | _, _ => false
  end.

(** What an observer of the collaborators sees of an event: a fetch, a
    wait or a notification. *)
Inductive Observation : Type :=
| Fetched
| Waited (ms : Z)
| Notified (title message : string).

Definition observe (e : Event) : list Observation :=
  match e with
  | ExecSync _ => [Fetched]
  | SetTimeout ms => [Waited ms]
  | NotifierNotify title message _ _ _ => [Notified title message]
  | ConsoleLog _ | ConsoleError _ | ProcessExit _ => []
  end.

Definition observations (trace : list Event) : list Observation :=
  flat_map observe trace.

Definition isNotified (o : Observation) : bool :=
  match o with
  | Notified _ _ => true
  | Fetched | Waited _ => false
  end.

Definition notificationsSent (trace : list Event) : list Observation :=
  filter isNotified (observations trace).

(** The observations of [k] polls that each end in the wait. *)
Definition pollsAndWaits (k : nat) : list Observation :=
  concat (repeat [Fetched; Waited interval] k).

(** The first message after completion. *)
Definition firstMessage (w : World) (checkCount : nat) (r : Result.t) : string :=
  completionMessage (Result.hasFailures r) (Result.prNumber r)
  ++ nl ++ "Completed in " ++ formatDuration (startTime w) (endTime w checkCount).

(** ** Sample runs *)

Module Example.

Definition url : string := "https://github.com/owner/repo/pull/123".

Definition notDone : list Check :=
  [mkCheck (Some "PENDING") (Some "lint") None None;
   mkCheck (Some "SUCCESS") (Some "unit") None None].

Definition doneSuccess : list Check :=
  [mkCheck (Some "SUCCESS") (Some "lint") None None;
   mkCheck (Some "SUCCESS") (Some "unit") None None].

Definition allUnknown : list Check :=
  [mkCheck (Some "SKIPPED") (Some "lint") None None;
   mkCheck None (Some "docs") None None;
   mkCheck (Some EmptyString) None None None].

(** The clock advances by the interval from poll to poll. *)
Definition clock (n : nat) : Z := (1000 + 20000 * Z.of_nat n)%Z.

Definition world (script : nat -> ExecOutcome) : World :=
  mkWorld 1000 clock clock clock (fun _ => "12:00:00")
          (fun n => mkPollInput (Selected None) (script n)).

(** The snapshot sequence not-done, not-done, done-success. *)
Definition threePolls (n : nat) : ExecOutcome :=
  if (n <=? 2)%nat then Parsed notDone else Parsed doneSuccess.

Definition ghFails (n : nat) : ExecOutcome :=
  Throws "Command failed: gh pr checks".

Definition noChecks (n : nat) : ExecOutcome := Parsed [].

Definition unknownOnly (n : nat) : ExecOutcome := Parsed allUnknown.

End Example.

(** ** Choosing a pull request interactively *)

(** One element of the array printed by [gh pr list --json
    number,title,url,author]. *)
Module PullRequest.
Record t : Type := mk {
  number : Z;
  title : string;
  url : string;
  login : string
}.
End PullRequest.

(** What the interactive functions print, and the question they ask. *)
Inductive Dialogue : Type :=
| Say (e : Event)
| Ask (query : string).

(** The number of bytes of the white-space or line-terminator character
    that starts [s], in UTF-8: TAB, LF, VT, FF, CR, SP, U+00A0, U+1680,
    U+2000 to U+200A, U+2028, U+2029, U+202F, U+205F, U+3000 and U+FEFF;
    0 when [s] starts with none of them. *)
Definition whiteSpaceLength (s : string) : nat :=
  match s with
  | EmptyString => 0
  | String c1 r1 =>
      let b1 := N_of_ascii c1 in
      if ((9 <=? b1) && (b1 <=? 13) || (b1 =? 32))%N then 1
      else
        match r1 with
        | EmptyString => 0
        | String c2 r2 =>
            let b2 := N_of_ascii c2 in
            if ((b1 =? 194) && (b2 =? 160))%N then 2
            else
              match r2 with
              | EmptyString => 0
              | String c3 _ =>
                  let b3 := N_of_ascii c3 in
                  if ((b1 =? 225) && (b2 =? 154) && (b3 =? 128)
                      || (b1 =? 226) && (b2 =? 128)
                         && ((128 <=? b3) && (b3 <=? 138)
                             || (b3 =? 168) || (b3 =? 169) || (b3 =? 175))
                      || (b1 =? 226) && (b2 =? 129) && (b3 =? 159)
                      || (b1 =? 227) && (b2 =? 128) && (b3 =? 128)
                      || (b1 =? 239) && (b2 =? 187) && (b3 =? 191))%N
                  then 3 else 0
              end
        end
  end.

(** [skip] bytes are dropped, then leading white space. *)
Fixpoint trimStartFrom (skip : nat) (s : string) : string :=
  match s with
  | EmptyString => EmptyString
  | String c rest =>
      match skip with
      | S k => trimStartFrom k rest
      | O =>
          match whiteSpaceLength s with
          | O => s
          | S k => trimStartFrom k rest
          end
      end
  end.

Definition trimStart (s : string) : string := trimStartFrom 0 s.

(** [!s.trim()]: trimming leaves nothing exactly when trimming the start
    leaves nothing. *)
Definition isBlank (s : string) : bool :=
  match trimStart s with
  | EmptyString => true
  | String _ _ => false
  end.

(** The value of [c] as a digit of the radix, if it is one. *)
Definition digitValue (radix : Z) (c : ascii) : option Z :=
  let n := Z.of_nat (nat_of_ascii c) in
  let value :=
    if isDigit c then Some (n - 48)%Z
    else if isLower c then Some (n - 97 + 10)%Z
    else if isUpper c then Some (n - 65 + 10)%Z
    else None in
  match value with
  | Some d => if (d <? radix)%Z then Some d else None
  | None => None
  end.

(** The value of the longest prefix of [s] made of digits of the radix;
    [acc] is the value read so far, [None] when no digit was read. *)
Fixpoint parseDigits (radix : Z) (acc : option Z) (s : string) : option Z :=
  match s with
  | EmptyString => acc
  | String c rest =>
      match digitValue radix c with
      | None => acc
      | Some d =>
          parseDigits radix
            (Some match acc with
                  | Some a => (a * radix + d)%Z
                  | None => d
                  end)
            rest
      end
  end.

(** [parseInt(s)] with no radix; [None] is [NaN].  The result is the exact
    integer: the program only compares it with 1 and with an array length,
    and uses it as an index when it lies between them, where the rounding
    of large values to a double makes no difference. *)
Definition parseInt (s : string) : option Z :=
  let s1 := trimStart s in
  let '(sign, s2) :=
    match s1 with
    | String "-" rest => ((-1)%Z, rest)
    | String "+" rest => (1%Z, rest)
    | _ => (1%Z, s1)
    end in
  let '(radix, s3) :=
    match s2 with
    | String "0" (String "x" rest) | String "0" (String "X" rest) => (16%Z, rest)
    | _ => (10%Z, s2)
    end in
  match parseDigits radix None s3 with
  | Some n => Some (sign * n)%Z
  | None => None
  end.

Definition isQuit (answer : string) : bool :=
  (toLowerCase answer =? "q") || (toLowerCase answer =? "quit").

Definition listing (index : nat) (pr : PullRequest.t) : list Dialogue :=
  [Say (ConsoleLog (showNat (index + 1) ++ ". PR #" ++ showZ (PullRequest.number pr)
                    ++ " - " ++ PullRequest.title pr));
   Say (ConsoleLog ("   Author: " ++ PullRequest.login pr));
   Say (ConsoleLog ("   URL: " ++ PullRequest.url pr ++ nl))].

(** [prs.forEach((pr, index) => ...)] of [promptUserForPR], from [index]. *)
Fixpoint listings (index : nat) (prs : list PullRequest.t) : list Dialogue :=
  match prs with
  | [] => []
  | pr :: rest => (listing index pr ++ listings (S index) rest)%list
  end.

(** [promptUserForPR], the same in both files that have it, given the
    answer typed at the prompt.  An index outside the array cannot happen
    after the range test; there the callback would throw, which ends the
    process with code 1. *)
Definition promptUserForPR (prs : list PullRequest.t) (answer : string)
  : list Dialogue * Selection :=
  let count := showNat (List.length prs) in
  let intro :=
    ([Say (ConsoleLog (nl ++ "Found " ++ count ++ " open PRs:"));
      Say (ConsoleLog "==============================")]
     ++ listings 0 prs
     ++ [Ask ("Please select a PR (1-" ++ count ++ ") or 'q' to quit: ")])%list in
  if isQuit answer then
    ((intro ++ [Say (ConsoleLog "Exiting...")])%list, Selected None)
  else
    let invalid :=
      ((intro
        ++ [Say (ConsoleLog ("Invalid selection '" ++ answer
                             ++ "'. Please enter a number between 1-" ++ count
                             ++ " or 'q' to quit."));
            Say (ConsoleLog "Exiting...");
            Say (ProcessExit 1)])%list,
       SelectionExits 1) in
    match parseInt answer with
    | None => invalid
    | Some selection =>
        if ((selection <? 1) || (Z.of_nat (List.length prs) <? selection))%Z
        then invalid
        else
          match nth_error prs (Z.to_nat (selection - 1)) with
          | None => ((intro ++ [Say (ProcessExit 1)])%list, SelectionExits 1)
          | Some selectedPR =>
              ((intro
                ++ [Say (ConsoleLog ("Selected PR #"
                                     ++ showZ (PullRequest.number selectedPR)
                                     ++ " - " ++ PullRequest.title selectedPR ++ nl))])%list,
               Selected (Some (PullRequest.url selectedPR)))
          end
    end.

(** A non-empty run of characters other than [/], then [/]: what is left
    after it. *)
Fixpoint afterSegment (first : bool) (s : string) : option string :=
  match s with
  | EmptyString => None
  | String c rest =>
      if Ascii.eqb c "/" then (if first then None else Some rest)
      else afterSegment false rest
  end.

(** The regular expression
    [/github\.com\/[^\/]+\/[^\/]+\/pull\/\d+/] tried at the start of [s]. *)
Definition githubPullHere (s : string) : bool :=
  if prefix "github.com/" s then
    match afterSegment true (substring 11 (String.length s - 11) s) with
    | None => false
    | Some s1 =>
        match afterSegment true s1 with
        | None => false
        | Some s2 =>
            prefix "pull/" s2
            && match substring 5 (String.length s2 - 5) s2 with
               | EmptyString => false
               | String c _ => isDigit c
               end
        end
    end
  else false.

(** [answer.match(/github\.com\/[^\/]+\/[^\/]+\/pull\/\d+/)] is not
    [null]. *)
Fixpoint githubPull (s : string) : bool :=
  match s with
  | EmptyString => false
  | String _ rest => githubPullHere s || githubPull rest
  end.

Module GithubPrMonitor.

(** [getOpenPRs] of [github-pr-monitor.js]: an empty array on failure. *)
Definition getOpenPRs (o : string + list PullRequest.t)
  : list Dialogue * list PullRequest.t :=
  let start :=
    [Say (ConsoleLog "Searching for open PRs...");
     Say (ExecSync "gh pr list --state open --json number,title,url,author")] in
  match o with
  | inr prs => (start, prs)
  | inl message =>
      ((start
        ++ [Say (ConsoleError ("Error fetching open PRs: " ++ message));
            Say (ConsoleError
                   "Make sure you have gh CLI installed and authenticated, and you're in a git repository")])%list,
       [])
  end.

Definition promptForPRUrl (answer : string) : list Dialogue * Selection :=
  let intro :=
    [Say (ConsoleLog (nl ++ "No open PRs found in this repository."));
     Say (ConsoleLog "Please provide a GitHub PR URL to monitor.");
     Say (ConsoleLog ("Example: https://github.com/owner/repo/pull/123" ++ nl));
     Ask "Enter PR URL (or 'q' to quit): "] in
  if isQuit answer then
    ((intro ++ [Say (ConsoleLog "Exiting...")])%list, Selected None)
  else if isBlank answer then
    ((intro ++ [Say (ConsoleLog "No URL provided. Exiting...")])%list, Selected None)
  else if negb (githubPull answer) then
    ((intro
      ++ [Say (ConsoleLog
                 "Invalid PR URL format. Expected: https://github.com/owner/repo/pull/123");
          Say (ConsoleLog "Exiting...")])%list,
     Selected None)
  else
    ((intro ++ [Say (ConsoleLog ("Using PR URL: " ++ answer ++ nl))])%list,
     Selected (Some answer)).

Definition selectPR (prs : list PullRequest.t) (answer : string)
  : list Dialogue * Selection :=
  match prs with
  | [] => promptForPRUrl answer
  | [pr] =>
      ([Say (ConsoleLog ("Found 1 open PR: #" ++ showZ (PullRequest.number pr)
                         ++ " - " ++ PullRequest.title pr))],
       Selected (Some (PullRequest.url pr)))
  | _ :: _ :: _ => promptUserForPR prs answer
  end.

(** The block [if (!prUrl) { ... }] of [checkAllChecksStatus] up to the
    tests of [prUrl]. *)
Definition discover (o : string + list PullRequest.t) (answer : string)
  : list Dialogue * Selection :=
  let '(out, openPRs) := getOpenPRs o in
  let '(asked, chosen) :=
    match openPRs with
    | [] => promptForPRUrl answer
    | _ :: _ => selectPR openPRs answer
    end in
  ((out ++ asked)%list, chosen).

End GithubPrMonitor.

Module Part.

(** [getOpenPRs] of the unnamed variant: [null] on failure. *)
Definition getOpenPRs (o : string + list PullRequest.t)
  : list Dialogue * option (list PullRequest.t) :=
  let start :=
    [Say (ConsoleLog "Searching for open PRs...");
     Say (ExecSync "gh pr list --state open --json number,title,url,author")] in
  match o with
  | inr prs => (start, Some prs)
  | inl message =>
      ((start
        ++ [Say (ConsoleError ("Error fetching open PRs: " ++ message));
            Say (ConsoleError
                   "Make sure you have gh CLI installed and authenticated, and you're in a git repository")])%list,
       None)
  end.

Definition selectPR (prs : list PullRequest.t) (answer : string)
  : list Dialogue * Selection :=
  match prs with
  | [] =>
      ([Say (ConsoleLog "No open PRs found in this repository");
        Say (ConsoleLog "Exiting...");
        Say (ProcessExit 0)],
       SelectionExits 0)
  | [pr] =>
      ([Say (ConsoleLog ("Found 1 open PR: #" ++ showZ (PullRequest.number pr)
                         ++ " - " ++ PullRequest.title pr))],
       Selected (Some (PullRequest.url pr)))
  | _ :: _ :: _ => promptUserForPR prs answer
  end.

Definition discover (o : string + list PullRequest.t) (answer : string)
  : list Dialogue * Selection :=
  let '(out, openPRs) := getOpenPRs o in
  match openPRs with
  | None => (out, Selected None)
  | Some prs =>
      let '(asked, chosen) := selectPR prs answer in
      ((out ++ asked)%list, chosen)
  end.

End Part.

(** The choice made in one poll when no URL was given on the command line:
    the outcome of [gh pr list] and the answer typed at the prompt, if one
    is shown.  [index.js] has no such step. *)
Definition discover (v : EntryPoint) (o : string + list PullRequest.t)
           (answer : string) : list Dialogue * Selection :=
  match v with
  | IndexJs => ([], Selected None)
  | GithubPrMonitorJs => GithubPrMonitor.discover o answer
  | Part000 => Part.discover o answer
  end.

(** ** Words for the properties of the reference, the duration and the loop *)

Fixpoint allDigits (s : string) : bool :=
  match s with
  | EmptyString => true
  | String c rest => isDigit c && allDigits rest
  end.

Definition startsWithDigit (s : string) : bool :=
  match s with
  | EmptyString => false
  | String c _ => isDigit c
  end.

(** [s] holds ["/pull/"] followed by a digit, after [n] characters. *)
Definition pullAt (n : nat) (s : string) : Prop :=
  exists pre c post,
    s = pre ++ "/pull/" ++ String c post
    /\ isDigit c = true /\ String.length pre = n.

(** No fetch follows a fetch without a wait in between; [fetched] tells
    that a fetch is not yet followed by a wait. *)
Fixpoint paced (fetched : bool) (obs : list Observation) : bool :=
  match obs with
  | [] => true
  | Fetched :: rest => negb fetched && paced true rest
  | Waited _ :: rest => paced false rest
  | Notified _ _ :: rest => paced fetched rest
  end.

Definition isWaited (o : Observation) : bool :=
  match o with
  | Waited _ => true
  | Fetched | Notified _ _ => false
  end.

Definition isFetched (o : Observation) : bool :=
  match o with
  | Fetched => true
  | Waited _ | Notified _ _ => false
  end.

Definition isConsoleLog (e : Event) : bool :=
  match e with
  | ConsoleLog _ => true
  | _ => false
  end.

Definition isProcessExit (e : Event) : bool :=
  match e with
  | ProcessExit _ => true
  | _ => false
  end.

Module Sample.

Definition prs : list PullRequest.t :=
  [PullRequest.mk 123 "Fix authentication bug"
     "https://github.com/owner/repo/pull/123" "john.doe";
   PullRequest.mk 124 "Add new feature"
     "https://github.com/owner/repo/pull/124" "jane.smith";
   PullRequest.mk 125 "Update documentation"
     "https://github.com/owner/repo/pull/125" "bob.wilson"].

(** A world whose polls choose a pull request from [prs] by the answers
    given, one per poll. *)
Definition choosing (v : EntryPoint) (answers : nat -> string) : World :=
  mkWorld 1000 Example.clock Example.clock Example.clock (fun _ => "12:00:00")
          (fun n => mkPollInput (snd (discover v (inr prs) (answers n)))
                                (Parsed Example.notDone)).

End Sample.

(** * Properties *)

(** ** The loop over the checks *)

Section ForEach.

Variable v : EntryPoint.
Variables showOutput verbose : bool.

(** The tally does not depend on what is printed. *)
Lemma forEachCheck_fst (checks : list Check) (t : Tally) (out : list Event) :
  fst (forEachCheck v showOutput verbose checks (t, out))
  = fold_left (fun t c => categorize (statusOf c) (contextOf c) t) checks t.
Proof.
  revert t out.
  induction checks as [|c checks IH]; intros t out; [reflexivity|].
  unfold forEachCheck in *. simpl. unfold visit at 2. simpl. apply IH.
Qed.

(** The loop only prints. *)
Lemma forEachCheck_snd (checks : list Check) (t : Tally) (out : list Event) :
  observations (snd (forEachCheck v showOutput verbose checks (t, out)))
  = observations out.
Proof.
  revert t out.
  induction checks as [|c checks IH]; intros t out; [reflexivity|].
  unfold forEachCheck in *. simpl. unfold visit at 2. simpl. rewrite IH.
  unfold observations. rewrite flat_map_app.
  unfold checkLines.
  destruct showOutput, verbose, (truthy (description c)), (truthy (link c));
    simpl; now rewrite app_nil_r.
Qed.

End ForEach.

Lemma classifiedAs_classify (c : Classification) (check : Check) :
  classifiedAs c check = true <-> classify (statusOf check) = Some c.
Proof.
  unfold classifiedAs.
  destruct (classify (statusOf check)) as [[]|], c; split; congruence.
Qed.

(** Each bucket grows by the names of its class, in input order; the two
    flags follow the pending and the failed checks. *)
Lemma tallyOf_spec (checks : list Check) (t : Tally) :
  pendingChecks (tallyOf checks t) = (pendingChecks t ++ namesOf Pending checks)%list
  /\ completedChecks (tallyOf checks t)
     = (completedChecks t ++ namesOf Success checks)%list
  /\ failedChecks (tallyOf checks t) = (failedChecks t ++ namesOf Failure checks)%list
  /\ allCompleted (tallyOf checks t)
     = allCompleted t && forallb (fun c => negb (classifiedAs Pending c)) checks
  /\ hasFailures (tallyOf checks t)
     = hasFailures t || existsb (classifiedAs Failure) checks.
Proof.
  revert t.
  induction checks as [|c checks IH]; intros t.
  - cbn. rewrite !app_nil_r, andb_true_r, orb_false_r. tauto.
  - unfold tallyOf in *. simpl fold_left.
    destruct (IH (categorize (statusOf c) (contextOf c) t))
      as (Hp & Hc & Hf & Ha & Hh).
    rewrite Hp, Hc, Hf, Ha, Hh. clear IH Hp Hc Hf Ha Hh.
    unfold namesOf, categorize, classifiedAs. simpl filter. simpl forallb.
    simpl existsb.
    destruct (classify (statusOf c)) as [[]|]; simpl;
      rewrite <- ?app_assoc; simpl;
      rewrite ?orb_true_r, ?andb_true_r, ?orb_false_r, ?andb_false_r;
      repeat split; reflexivity.
Qed.

(** The aggregator on a non-empty list, in closed form. *)
Lemma aggregate_nonempty (v : EntryPoint) (showOutput verbose : bool)
      (prNumber : string) (checks : list Check) :
  checks <> [] ->
  snd (aggregate v showOutput verbose prNumber checks)
  = CheckResult
      (Result.mk
         (forallb (fun c => negb (classifiedAs Pending c)) checks)
         (existsb (classifiedAs Failure) checks)
         checks prNumber
         (Summary.mk (List.length checks) (namesOf Pending checks)
            (namesOf Success checks) (namesOf Failure checks))).
Proof.
  intros Hne. destruct checks as [|c checks]; [congruence|].
  unfold aggregate.
  match goal with
  | |- context [forEachCheck ?a ?b ?d ?l (?t, ?o)] =>
      pose proof (forEachCheck_fst a b d l t o) as Hfst;
      destruct (forEachCheck a b d l (t, o)) as [t' out]
  end.
  change (t' = tallyOf (c :: checks) initialTally) in Hfst. subst t'.
  destruct (tallyOf_spec (c :: checks) initialTally) as (Hp & Hc & Hf & Ha & Hh).
  cbv beta iota delta [snd].
  rewrite Hp, Hc, Hf, Ha, Hh. reflexivity.
Qed.

Lemma aggregate_observations (v : EntryPoint) (showOutput verbose : bool)
      (prNumber : string) (checks : list Check) :
  observations (fst (aggregate v showOutput verbose prNumber checks)) = [].
Proof.
  destruct checks as [|c checks].
  - simpl. now destruct showOutput.
  - unfold aggregate.
    match goal with
    | |- context [forEachCheck ?a ?b ?d ?l (?t, ?o)] =>
        pose proof (forEachCheck_snd a b d l t o) as Hsnd;
        destruct (forEachCheck a b d l (t, o)) as [t' out]
    end.
    simpl in *. rewrite Hsnd. now destruct showOutput.
Qed.

(** ** Letter case *)

Lemma isUpper_bounds (c : ascii) :
  isUpper c = true -> 65 <= nat_of_ascii c <= 90.
Proof.
  unfold isUpper. rewrite andb_true_iff, !Nat.leb_le. tauto.
Qed.

Lemma lowerChar_of_upper (c d : ascii) :
  isUpper c = true -> nat_of_ascii d = nat_of_ascii c + 32 ->
  lowerChar c = lowerChar d.
Proof.
  intros Hc Hd. pose proof (isUpper_bounds c Hc) as Hb.
  unfold lowerChar. rewrite Hc.
  assert (isUpper d = false) as ->.
  { unfold isUpper. rewrite Hd. apply andb_false_iff. right.
    apply Nat.leb_gt. lia. }
  rewrite <- Hd. apply ascii_nat_embedding.
Qed.

Lemma sameLetter_lowerChar (c d : ascii) :
  sameLetter c d = true -> lowerChar c = lowerChar d.
Proof.
  unfold sameLetter. rewrite !orb_true_iff, !andb_true_iff, !Nat.eqb_eq.
  intros [[H | [Hc Hd]] | [Hd Hc]].
  - apply Ascii.eqb_eq in H. now subst.
  - now apply lowerChar_of_upper.
  - symmetry. now apply lowerChar_of_upper.
Qed.

Lemma sameUpToCase_toLowerCase (s t : string) :
  sameUpToCase s t = true -> toLowerCase s = toLowerCase t.
Proof.
  revert t. induction s as [|c s IH]; intros [|d t]; simpl; try discriminate; auto.
  rewrite andb_true_iff. intros [Hcd Hst]. unfold toLowerCase in *. simpl.
  now rewrite (sameLetter_lowerChar _ _ Hcd), (IH _ Hst).
Qed.

(** ** Status classifier *)

(** Splits on which of the seven state words the lower-cased status is. *)
Ltac split_on_word l :=
  destruct (String.eqb_spec l "pending");
  [subst l|
   destruct (String.eqb_spec l "in_progress");
   [subst l|
    destruct (String.eqb_spec l "failure");
    [subst l|
     destruct (String.eqb_spec l "failed");
     [subst l|
      destruct (String.eqb_spec l "cancelled");
      [subst l|
       destruct (String.eqb_spec l "success");
       [subst l|
        destruct (String.eqb_spec l "completed");
        [subst l|]]]]]]].

(** C4. The classifier gives the same class to two status strings that
    differ only in letter case, and it sends every spelling of "success"
    and "completed" to [Success], of "failure", "failed" and "cancelled" to
    [Failure], and of "pending" and "in_progress" to [Pending]. *)
Theorem classify_case_insensitive (s w : string)
        (H : sameUpToCase s w = true) :
  classify s = classify w
  /\ (In w ["success"; "completed"] -> classify s = Some Success)
  /\ (In w ["failure"; "failed"; "cancelled"] -> classify s = Some Failure)
  /\ (In w ["pending"; "in_progress"] -> classify s = Some Pending).
Proof.
  assert (classify s = classify w) as E.
  { unfold classify. now rewrite (sameUpToCase_toLowerCase _ _ H). }
  split; [exact E|]. rewrite E. clear E H.
  repeat split; simpl; intros Hw;
    repeat (destruct Hw as [<- | Hw]; [reflexivity|]); contradiction.
Qed.

Lemma classify_case_insensitive_witness :
  sameUpToCase "In_Progress" "in_progress" = true
  /\ classify "In_Progress" = Some Pending.
Proof.
  split; [reflexivity|].
  apply (classify_case_insensitive "In_Progress" "in_progress");
    [reflexivity | simpl; auto].
Defined.

(** C8, as the specification states it, fails: "cancelled" and "failure"
    are both classified as [Failure], but they get different glyphs, in
    each of the three files. *)
Lemma glyph_differs_within_failure_class :
  classify "cancelled" = Some Failure
  /\ classify "failure" = Some Failure
  /\ getStatusEmoji IndexJs "cancelled" <> getStatusEmoji IndexJs "failure"
  /\ getStatusEmoji GithubPrMonitorJs "cancelled"
     <> getStatusEmoji GithubPrMonitorJs "failure"
  /\ getStatusEmoji Part000 "cancelled" <> getStatusEmoji Part000 "failure".
Proof.
  repeat split; try reflexivity; vm_compute; discriminate.
Qed.

(** C8, amended.  The glyph is case-insensitive and follows the classifier
    for [Success] and [Pending] and for unknown strings; within [Failure]
    it tells "cancelled", which has a glyph of its own, from "failure" and
    "failed". *)
Theorem getStatusEmoji_table (v : EntryPoint) (s w : string)
        (H : sameUpToCase s w = true) :
  getStatusEmoji v s = getStatusEmoji v w
  /\ getStatusEmoji v s
     = match classify s with
       | Some Success => glyph v CheckMark
       | Some Pending => glyph v YellowCircle
       | Some Failure =>
           if toLowerCase s =? "cancelled"
           then glyph v WhiteCircle else glyph v CrossMark
       | None => glyph v QuestionMark
       end.
Proof.
  split.
  - unfold getStatusEmoji. now rewrite (sameUpToCase_toLowerCase _ _ H).
  - clear H w. unfold getStatusEmoji, classify, includes.
    remember (toLowerCase s) as l eqn:El. clear El s.
    split_on_word l; try reflexivity.
    simpl existsb.
    repeat match goal with
           | Hne : ?a <> ?b |- _ =>
               apply String.eqb_neq in Hne; rewrite Hne; clear Hne
           end.
    reflexivity.
Qed.

Lemma getStatusEmoji_table_witness :
  sameUpToCase "CANCELLED" "cancelled" = true
  /\ getStatusEmoji Part000 "CANCELLED" = glyph Part000 WhiteCircle.
Proof.
  split; [reflexivity|].
  exact (proj2 (getStatusEmoji_table Part000 "CANCELLED" "cancelled" eq_refl)).
Defined.

(** ** Snapshot aggregator *)

Lemma class_count (checks : list Check) :
  List.length (namesOf Pending checks) + List.length (namesOf Success checks)
  + List.length (namesOf Failure checks)
  + List.length (filter (fun c => negb (statusKnown c)) checks)
  = List.length checks.
Proof.
  unfold namesOf. rewrite !length_map.
  induction checks as [|c checks IH]; [reflexivity|].
  simpl. unfold classifiedAs, statusKnown in *.
  destruct (classify (statusOf c)) as [[]|]; simpl; lia.
Qed.

Lemma namesOf_nil_iff (k : Classification) (checks : list Check) :
  namesOf k checks = []
  <-> forallb (fun c => negb (classifiedAs k c)) checks = true.
Proof.
  unfold namesOf.
  induction checks as [|c checks IH]; simpl; [tauto|].
  destruct (classifiedAs k c); simpl; [split; discriminate | exact IH].
Qed.

Lemma namesOf_cons_iff (k : Classification) (checks : list Check) :
  namesOf k checks <> [] <-> existsb (classifiedAs k) checks = true.
Proof.
  unfold namesOf.
  induction checks as [|c checks IH]; simpl; [split; congruence|].
  destruct (classifiedAs k c); simpl; [split; congruence | exact IH].
Qed.

(** C1, as the specification states it, fails: a check whose state is
    outside the table is counted in [total] and put in no bucket. *)
Lemma unknown_state_is_in_no_bucket :
  exists r,
    snd (aggregate IndexJs true false "123"
           [mkCheck (Some "skipped") (Some "lint") None None])
    = CheckResult r
    /\ Summary.total (Result.summary r) = 1
    /\ bucketSizes r = 0
    /\ bucketSizes r <> Summary.total (Result.summary r).
Proof.
  eexists. split; [reflexivity|]. cbn. repeat split; discriminate.
Qed.

(** C1, amended.  For a non-empty check list, [total] is the length of the
    list, and the three buckets together with the checks whose state is
    outside the table sum to [total]; the buckets alone sum to [total]
    when every state is in the table. *)
Theorem buckets_and_unknown_sum_to_total
        (v : EntryPoint) (showOutput verbose : bool) (prNumber : string)
        (checks : list Check) (H : checks <> []) :
  exists r,
    snd (aggregate v showOutput verbose prNumber checks) = CheckResult r
    /\ Summary.total (Result.summary r) = List.length checks
    /\ bucketSizes r + List.length (filter (fun c => negb (statusKnown c)) checks)
       = Summary.total (Result.summary r)
    /\ (forallb statusKnown checks = true
        -> bucketSizes r = Summary.total (Result.summary r)).
Proof.
  eexists. split; [apply aggregate_nonempty; exact H|].
  unfold bucketSizes. simpl.
  pose proof (class_count checks) as Hc.
  repeat split; [lia|].
  intros Hall.
  assert (filter (fun c => negb (statusKnown c)) checks = []) as E.
  { clear - Hall. induction checks as [|c checks IH]; [reflexivity|].
    simpl in *. apply andb_true_iff in Hall as [-> Hall]. simpl. auto. }
  rewrite E in Hc. simpl in Hc. lia.
Qed.

Lemma buckets_and_unknown_sum_to_total_witness :
  exists r,
    snd (aggregate IndexJs true false "123"
           [mkCheck (Some "SKIPPED") (Some "lint") None None;
            mkCheck (Some "FAILURE") (Some "test") None None])
    = CheckResult r
    /\ Summary.total (Result.summary r) = 2
    /\ bucketSizes r + 1 = Summary.total (Result.summary r).
Proof.
  destruct (buckets_and_unknown_sum_to_total IndexJs true false "123"
              [mkCheck (Some "SKIPPED") (Some "lint") None None;
               mkCheck (Some "FAILURE") (Some "test") None None])
    as (r & Hr & Ht & Hs & _); [discriminate|].
  exists r. repeat split; assumption.
Defined.

(** C5. For a non-empty check list, [completed] (the all-completed flag)
    holds exactly when the pending list is empty, and [hasFailures] holds
    exactly when the failed list is not empty. *)
Theorem flags_follow_buckets
        (v : EntryPoint) (showOutput verbose : bool) (prNumber : string)
        (checks : list Check) (H : checks <> []) :
  exists r,
    snd (aggregate v showOutput verbose prNumber checks) = CheckResult r
    /\ (Result.completed r = true <-> Summary.pending (Result.summary r) = [])
    /\ (Result.hasFailures r = true <-> Summary.failed (Result.summary r) <> []).
Proof.
  eexists. split; [apply aggregate_nonempty; exact H|]. simpl. split.
  - symmetry. apply namesOf_nil_iff.
  - symmetry. apply namesOf_cons_iff.
Qed.

Lemma flags_follow_buckets_witness :
  exists r,
    snd (aggregate GithubPrMonitorJs false false "9"
           [mkCheck (Some "failed") (Some "build") None None;
            mkCheck (Some "success") (Some "lint") None None])
    = CheckResult r
    /\ (Result.completed r = true <-> Summary.pending (Result.summary r) = [])
    /\ (Result.hasFailures r = true <-> Summary.failed (Result.summary r) <> []).
Proof.
  apply (flags_follow_buckets GithubPrMonitorJs false false "9"
           [mkCheck (Some "failed") (Some "build") None None;
            mkCheck (Some "success") (Some "lint") None None]).
  discriminate.
Defined.

(** C6. The aggregator returns the error result exactly on the empty check
    list, where it reports that no checks were found; on every non-empty
    list it returns a snapshot. *)
Theorem aggregate_error_iff_empty
        (v : EntryPoint) (showOutput verbose : bool) (prNumber : string)
        (checks : list Check) :
  (snd (aggregate v showOutput verbose prNumber checks) = ErrorResult
   <-> checks = [])
  /\ (checks = []
      \/ exists r,
           snd (aggregate v showOutput verbose prNumber checks) = CheckResult r)
  /\ aggregate v showOutput verbose prNumber []
     = ((if showOutput then [ConsoleLog "No checks found for this PR"] else []),
        ErrorResult).
Proof.
  destruct checks as [|c checks].
  - repeat split. now left.
  - assert (c :: checks <> []) as Hne by discriminate.
    rewrite (aggregate_nonempty v showOutput verbose prNumber _ Hne).
    repeat split; try discriminate. right. eauto.
Qed.

(** ** One poll *)

Lemma resolvePrUrl_supplied (v : EntryPoint) (prUrl : option string) (p : PollInput) :
  truthy prUrl = true -> resolvePrUrl v prUrl p = inr (orElse prUrl EmptyString).
Proof.
  intros H. unfold resolvePrUrl. now rewrite H.
Qed.

Lemma checkAllChecksStatus_parsed
      (v : EntryPoint) (prUrl : option string) (showOutput verbose : bool)
      (p : PollInput) (url prNumber : string) (checks : list Check) :
  resolvePrUrl v prUrl p = inr url ->
  matchPull url = Some prNumber ->
  gh p = Parsed checks ->
  snd (checkAllChecksStatus v prUrl showOutput verbose p)
  = Returns (snd (aggregate v showOutput verbose prNumber checks)).
Proof.
  intros Hr Hm Hg. unfold checkAllChecksStatus. rewrite Hr, Hm, Hg.
  now destruct (aggregate v showOutput verbose prNumber checks).
Qed.

Lemma checkAllChecksStatus_throws
      (v : EntryPoint) (prUrl : option string) (showOutput verbose : bool)
      (p : PollInput) (url prNumber message : string) :
  resolvePrUrl v prUrl p = inr url ->
  matchPull url = Some prNumber ->
  gh p = Throws message ->
  snd (checkAllChecksStatus v prUrl showOutput verbose p) = Returns ErrorResult.
Proof.
  intros Hr Hm Hg. unfold checkAllChecksStatus. now rewrite Hr, Hm, Hg.
Qed.

Lemma checkAllChecksStatus_invalid
      (v : EntryPoint) (prUrl : option string) (showOutput verbose : bool)
      (p : PollInput) (url : string) :
  resolvePrUrl v prUrl p = inr url ->
  matchPull url = None ->
  checkAllChecksStatus v prUrl showOutput verbose p
  = ([ConsoleError invalidUrlMessage], Returns ErrorResult).
Proof.
  intros Hr Hm. unfold checkAllChecksStatus. now rewrite Hr, Hm.
Qed.

(** A poll that returns a snapshot has fetched once, and has neither
    waited nor notified. *)
Lemma snapshot_poll_observations
      (v : EntryPoint) (prUrl : option string) (showOutput verbose : bool)
      (p : PollInput) (r : Result.t) :
  snd (checkAllChecksStatus v prUrl showOutput verbose p) = Returns (CheckResult r) ->
  observations (fst (checkAllChecksStatus v prUrl showOutput verbose p)) = [Fetched].
Proof.
  unfold checkAllChecksStatus.
  destruct (resolvePrUrl v prUrl p) as [[out ret]|url] eqn:Hr.
  - unfold resolvePrUrl in Hr.
    destruct (truthy prUrl); [discriminate|].
    destruct v; try (inversion Hr; subst; discriminate);
      destruct (selection p) as [u|code];
      try destruct (truthy u); inversion Hr; subst; discriminate.
  - destruct (matchPull url) as [prNumber|]; [|discriminate].
    destruct (gh p) as [message|checks]; [discriminate|].
    pose proof (aggregate_observations v showOutput verbose prNumber checks) as Ho.
    destruct (aggregate v showOutput verbose prNumber checks) as [out o].
    simpl in *. intros _. unfold observations in *.
    rewrite flat_map_app. simpl. rewrite Ho.
    now destruct showOutput.
Qed.

(** C9. The snapshot is a function of the check list alone: two polls
    that parse the same list return the same result whatever the file,
    the output flags, the clock and the rest of the poll's input; the
    result hands the list back unchanged; and each bucket holds the names
    of the checks of its class in input order. *)
Theorem aggregate_deterministic_and_ordered
        (v v' : EntryPoint) (showOutput showOutput' verbose verbose' : bool)
        (prUrl : option string) (p p' : PollInput) (checks : list Check)
        (Hurl : truthy prUrl = true)
        (Hp : gh p = Parsed checks) (Hp' : gh p' = Parsed checks)
        (Hne : checks <> []) :
  snd (checkAllChecksStatus v prUrl showOutput verbose p)
  = snd (checkAllChecksStatus v' prUrl showOutput' verbose' p')
  /\ forall prNumber,
      snd (aggregate v showOutput verbose prNumber checks)
      = snd (aggregate v' showOutput' verbose' prNumber checks)
      /\ exists r,
          snd (aggregate v showOutput verbose prNumber checks) = CheckResult r
          /\ Result.checks r = checks
          /\ Summary.pending (Result.summary r) = namesOf Pending checks
          /\ Summary.completed (Result.summary r) = namesOf Success checks
          /\ Summary.failed (Result.summary r) = namesOf Failure checks.
Proof.
  split.
  - unfold checkAllChecksStatus.
    rewrite !(resolvePrUrl_supplied _ _ _ Hurl).
    destruct (matchPull (orElse prUrl EmptyString)) as [prNumber|]; [|reflexivity].
    rewrite Hp, Hp'.
    pose proof (aggregate_nonempty v showOutput verbose prNumber checks Hne) as E.
    pose proof (aggregate_nonempty v' showOutput' verbose' prNumber checks Hne) as E'.
    destruct (aggregate v showOutput verbose prNumber checks),
      (aggregate v' showOutput' verbose' prNumber checks).
    simpl in *. congruence.
  - intros prNumber. rewrite !(aggregate_nonempty _ _ _ _ _ Hne).
    split; [reflexivity|]. eexists. split; [reflexivity|]. simpl. tauto.
Qed.

Lemma aggregate_deterministic_and_ordered_witness :
  let checks :=
    [mkCheck (Some "PENDING") (Some "lint") None None;
     mkCheck (Some "SUCCESS") (Some "unit") None None;
     mkCheck (Some "pending") (Some "e2e") None None] in
  exists r,
    snd (aggregate IndexJs true false "42" checks) = CheckResult r
    /\ Result.checks r = checks
    /\ Summary.pending (Result.summary r) = ["lint"; "e2e"]
    /\ Summary.completed (Result.summary r) = ["unit"]
    /\ Summary.failed (Result.summary r) = [].
Proof.
  intros checks.
  destruct (aggregate_deterministic_and_ordered
              IndexJs Part000 true false false true
              (Some "https://github.com/owner/repo/pull/42")
              (mkPollInput (Selected None) (Parsed checks))
              (mkPollInput (SelectionExits 1) (Parsed checks))
              checks eq_refl eq_refl eq_refl) as [_ H].
  - discriminate.
  - destruct (H "42") as [_ Hr]. exact Hr.
Defined.

(** ** The monitor loop *)

Lemma observations_app (a b : list Event) :
  observations (a ++ b) = (observations a ++ observations b)%list.
Proof. apply flat_map_app. Qed.

Lemma summaryLines_observations (v : EntryPoint) (r : Result.t) :
  observations (summaryLines v r) = [].
Proof.
  unfold summaryLines.
  destruct (0 <? List.length (Summary.completed (Result.summary r)))%nat,
    (0 <? List.length (Summary.failed (Result.summary r)))%nat; reflexivity.
Qed.

Lemma progressLines_observations (v : EntryPoint) (r : Result.t) :
  observations (progressLines v r) = [].
Proof.
  unfold progressLines.
  destruct (0 <? List.length (Summary.pending (Result.summary r)))%nat,
    (0 <? List.length (Summary.failed (Result.summary r)))%nat; reflexivity.
Qed.

Lemma sendNotification_observations (v : EntryPoint) (message type : string) :
  exists title,
    sendNotification v message type = [NotifierNotify title message true false 10]
    /\ observations (sendNotification v message type) = [Notified title message].
Proof.
  unfold sendNotification. eexists. split; reflexivity.
Qed.

Lemma completedBranch_observations
      (v : EntryPoint) (duration : string) (checkCount : nat) (r : Result.t) :
  observations (fst (completedBranch v duration checkCount r))
  = observations
      (sendNotification v
         (completionMessage (Result.hasFailures r) (Result.prNumber r)
          ++ nl ++ "Completed in " ++ duration)
         (completionType (Result.hasFailures r))).
Proof.
  unfold completedBranch. cbn [fst].
  rewrite !observations_app, summaryLines_observations.
  destruct (sendNotification_observations v
              (completionMessage (Result.hasFailures r) (Result.prNumber r)
               ++ nl ++ "Completed in " ++ duration)
              (completionType (Result.hasFailures r))) as (title & _ & ->).
  assert (observations (repeatBanner v) = []) as -> by now destruct v.
  destruct (Result.hasFailures r);
    [destruct (0 <? List.length (Summary.failed (Result.summary r)))%nat|];
    reflexivity.
Qed.

(** A poll that finds checks still pending fetches once, waits once and
    goes on polling. *)
Lemma pollOnce_pending
      (v : EntryPoint) (prUrl : option string) (verbose : bool) (w : World)
      (n : nat) (r : Result.t) :
  snd (checkAllChecksStatus v prUrl true verbose (poll w (S n)))
  = Returns (CheckResult r) ->
  Result.completed r = false ->
  observations (fst (pollOnce v prUrl verbose w n)) = [Fetched; Waited interval]
  /\ snd (pollOnce v prUrl verbose w n) = Polling (S n).
Proof.
  intros Hr Hc.
  pose proof (snapshot_poll_observations _ _ _ _ _ _ Hr) as Ho.
  unfold pollOnce.
  destruct (checkAllChecksStatus v prUrl true verbose (poll w (S n))) as [out ret].
  simpl in Hr, Ho. subst ret. rewrite Hc. cbn [fst snd].
  split; [|reflexivity].
  change (observations (pollHeader w (S n) :: ?l)) with (observations l).
  now rewrite !observations_app, Ho, progressLines_observations.
Qed.

(** A poll that finds all checks completed fetches once and notifies
    once. *)
Lemma pollOnce_completed
      (v : EntryPoint) (prUrl : option string) (verbose : bool) (w : World)
      (n : nat) (r : Result.t) :
  snd (checkAllChecksStatus v prUrl true verbose (poll w (S n)))
  = Returns (CheckResult r) ->
  Result.completed r = true ->
  observations (fst (pollOnce v prUrl verbose w n))
  = Fetched
    :: observations
         (sendNotification v (firstMessage w (S n) r)
            (completionType (Result.hasFailures r)))
  /\ snd (pollOnce v prUrl verbose w n)
     = match v with
       | GithubPrMonitorJs =>
           Notifying r (formatDuration (startTime w) (endTime w (S n)))
                     (completionType (Result.hasFailures r)) 0
       | IndexJs | Part000 => Returned
       end.
Proof.
  intros Hr Hc.
  pose proof (snapshot_poll_observations _ _ _ _ _ _ Hr) as Ho.
  unfold pollOnce.
  destruct (checkAllChecksStatus v prUrl true verbose (poll w (S n))) as [out ret].
  simpl in Hr, Ho. subst ret. rewrite Hc.
  pose proof (completedBranch_observations v
                (formatDuration (startTime w) (endTime w (S n))) (S n) r) as Hb.
  destruct (completedBranch v (formatDuration (startTime w) (endTime w (S n)))
              (S n) r) as [after next] eqn:E.
  cbn [fst snd] in *. split.
  - change (observations (pollHeader w (S n) :: ?l)) with (observations l).
    rewrite observations_app, Ho, Hb. reflexivity.
  - unfold completedBranch in E. now inversion E.
Qed.

(** A poll that returns the error result: the retry in two files, the
    halt in the third. *)
Lemma pollOnce_error
      (v : EntryPoint) (prUrl : option string) (verbose : bool) (w : World) (n : nat) :
  snd (checkAllChecksStatus v prUrl true verbose (poll w (S n))) = Returns ErrorResult ->
  pollOnce v prUrl verbose w n
  = ((pollHeader w (S n)
      :: fst (checkAllChecksStatus v prUrl true verbose (poll w (S n)))
      ++ fst (errorBranch v (S n)))%list,
     snd (errorBranch v (S n))).
Proof.
  intros Hr. unfold pollOnce.
  destruct (checkAllChecksStatus v prUrl true verbose (poll w (S n))) as [out ret].
  simpl in Hr. subst ret. now destruct (errorBranch v (S n)).
Qed.

Lemma run_S (v : EntryPoint) (prUrl : option string) (verbose : bool) (w : World)
      (fuel : nat) (m : Machine) :
  run v prUrl verbose w (S fuel) m
  = ((fst (step v prUrl verbose w m)
      ++ fst (run v prUrl verbose w fuel (snd (step v prUrl verbose w m))))%list,
     snd (run v prUrl verbose w fuel (snd (step v prUrl verbose w m)))).
Proof.
  simpl. destruct (step v prUrl verbose w m) as [out m']. cbn [fst snd].
  now destruct (run v prUrl verbose w fuel m').
Qed.

Lemma run_add (v : EntryPoint) (prUrl : option string) (verbose : bool) (w : World)
      (a b : nat) (m : Machine) :
  run v prUrl verbose w (a + b) m
  = ((fst (run v prUrl verbose w a m)
      ++ fst (run v prUrl verbose w b (snd (run v prUrl verbose w a m))))%list,
     snd (run v prUrl verbose w b (snd (run v prUrl verbose w a m)))).
Proof.
  revert m. induction a as [|a IH]; intros m.
  - simpl. now destruct (run v prUrl verbose w b m).
  - change (S a + b) with (S (a + b)). rewrite !run_S, IH. cbn [fst snd].
    now rewrite app_assoc.
Qed.

Lemma run_Returned (v : EntryPoint) (prUrl : option string) (verbose : bool)
      (w : World) (fuel : nat) :
  run v prUrl verbose w fuel Returned = ([], Returned).
Proof.
  induction fuel as [|fuel IH]; [reflexivity|]. rewrite run_S. simpl. now rewrite IH.
Qed.

Lemma run_Exited (v : EntryPoint) (prUrl : option string) (verbose : bool)
      (w : World) (fuel : nat) (code : Z) :
  run v prUrl verbose w fuel (Exited code) = ([], Exited code).
Proof.
  induction fuel as [|fuel IH]; [reflexivity|]. rewrite run_S. simpl. now rewrite IH.
Qed.

(** The repeated notifications: one notification and one wait per turn. *)
Lemma run_Notifying (v : EntryPoint) (prUrl : option string) (verbose : bool)
      (w : World) (r : Result.t) (duration type : string) (fuel count : nat) :
  observations (fst (run v prUrl verbose w fuel (Notifying r duration type count)))
  = concat (repeat
              (observations (sendNotification v (repeatMessage v r duration type) "repeat")
               ++ [Waited interval])%list
              fuel)
  /\ snd (run v prUrl verbose w fuel (Notifying r duration type count))
     = Notifying r duration type (count + fuel).
Proof.
  revert count. induction fuel as [|fuel IH]; intros count.
  - simpl. now rewrite Nat.add_0_r.
  - rewrite run_S. cbn [step notifyOnce fst snd].
    destruct (IH (S count)) as [Ho Hs]. rewrite Hs. split.
    + rewrite observations_app, Ho. simpl repeat. simpl concat.
      f_equal.
      change (observations (ConsoleLog ?x :: ?l)) with (observations l).
      now rewrite observations_app.
    + f_equal. lia.
Qed.

(** [k] polls that all find checks pending, from any point of the loop. *)
Lemma run_pending (v : EntryPoint) (prUrl : option string) (verbose : bool)
      (w : World) (k n : nat) :
  (forall j, n < j <= n + k ->
     exists rj,
       snd (checkAllChecksStatus v prUrl true verbose (poll w j))
       = Returns (CheckResult rj)
       /\ Result.completed rj = false) ->
  observations (fst (run v prUrl verbose w k (Polling n))) = pollsAndWaits k
  /\ snd (run v prUrl verbose w k (Polling n)) = Polling (n + k).
Proof.
  revert n. induction k as [|k IH]; intros n H.
  - simpl. now rewrite Nat.add_0_r.
  - rewrite run_S. cbn [step].
    destruct (H (S n)) as (rj & Hr & Hc); [lia|].
    destruct (pollOnce_pending v prUrl verbose w n rj Hr Hc) as [Ho Hs].
    rewrite Hs. destruct (IH (S n)) as [Ho' Hs'].
    { intros j Hj. apply H. lia. }
    cbn [fst snd]. rewrite observations_app, Ho, Ho', Hs'. split.
    + reflexivity.
    + f_equal. lia.
Qed.

Lemma pollsAndWaits_no_notification (k : nat) :
  filter isNotified (pollsAndWaits k) = [].
Proof.
  unfold pollsAndWaits. induction k as [|k IH]; [reflexivity|]. simpl. exact IH.
Qed.

Lemma error_poll_observations
      (v : EntryPoint) (prUrl : option string) (showOutput verbose : bool)
      (p : PollInput) (url prNumber : string) :
  resolvePrUrl v prUrl p = inr url ->
  matchPull url = Some prNumber ->
  (exists message, gh p = Throws message) \/ gh p = Parsed [] ->
  snd (checkAllChecksStatus v prUrl showOutput verbose p) = Returns ErrorResult
  /\ observations (fst (checkAllChecksStatus v prUrl showOutput verbose p)) = [Fetched].
Proof.
  intros Hr Hm Hg. unfold checkAllChecksStatus. rewrite Hr, Hm.
  destruct Hg as [[message Hg] | Hg]; rewrite Hg; simpl;
    destruct showOutput; split; reflexivity.
Qed.

(** C2, as the specification states it, fails: in [github-pr-monitor.js]
    a failing fetch ends the process with exit code 1, without a wait and
    without another poll. *)
Lemma fetch_error_halts_github_pr_monitor :
  let w := Example.world Example.ghFails in
  snd (checkAllChecksStatus GithubPrMonitorJs (Some Example.url) true false (poll w 1))
  = Returns ErrorResult
  /\ snd (pollOnce GithubPrMonitorJs (Some Example.url) false w 0) = Exited 1
  /\ observations (fst (pollOnce GithubPrMonitorJs (Some Example.url) false w 0))
     = [Fetched]
  /\ exitCode (snd (monitorAllChecksStatus GithubPrMonitorJs (Some Example.url)
                      false w 5))
     = Some 1%Z.
Proof.
  repeat split; reflexivity.
Qed.

(** C2, amended.  When a poll ends in a fetch error or an empty check set,
    [index.js] and the unnamed variant report the error, wait the fixed
    interval and poll again; [github-pr-monitor.js] reports the error and
    ends the process with exit code 1. *)
Theorem poll_error_retries_or_halts
        (v : EntryPoint) (prUrl : option string) (verbose : bool) (w : World)
        (n : nat) (url prNumber : string)
        (Hurl : resolvePrUrl v prUrl (poll w (S n)) = inr url)
        (Hnum : matchPull url = Some prNumber)
        (Hfail : (exists message, gh (poll w (S n)) = Throws message)
                 \/ gh (poll w (S n)) = Parsed []) :
  let out := fst (checkAllChecksStatus v prUrl true verbose (poll w (S n))) in
  match v with
  | IndexJs | Part000 =>
      pollOnce v prUrl verbose w n
      = ((pollHeader w (S n)
          :: out ++ [ConsoleLog "Error occurred, will retry in 20 seconds...";
                     ConsoleLog "Waiting 20 seconds before next check...";
                     SetTimeout 20000])%list,
         Polling (S n))
      /\ observations (fst (pollOnce v prUrl verbose w n)) = [Fetched; Waited 20000]
      /\ forall fuel,
          run v prUrl verbose w (S fuel) (Polling n)
          = ((fst (pollOnce v prUrl verbose w n)
              ++ fst (run v prUrl verbose w fuel (Polling (S n))))%list,
             snd (run v prUrl verbose w fuel (Polling (S n))))
  | GithubPrMonitorJs =>
      pollOnce v prUrl verbose w n
      = ((pollHeader w (S n)
          :: out ++ [ConsoleLog "Error occurred true"; ProcessExit 1])%list,
         Exited 1)
      /\ observations (fst (pollOnce v prUrl verbose w n)) = [Fetched]
      /\ forall fuel,
          exitCode (snd (run v prUrl verbose w (S fuel) (Polling n))) = Some 1%Z
  end.
Proof.
  intros out.
  destruct (error_poll_observations v prUrl true verbose _ _ _ Hurl Hnum Hfail)
    as [Herr Hobs].
  pose proof (pollOnce_error v prUrl verbose w n Herr) as Hp.
  fold out in Hp, Hobs.
  destruct v; cbn [errorBranch fst snd waitForNextCheck] in Hp;
    (split; [exact Hp|]); rewrite Hp; cbn [fst snd];
    change (observations (pollHeader w (S n) :: ?l)) with (observations l);
    rewrite observations_app, Hobs; (split; [reflexivity|]); intros fuel;
    rewrite run_S; cbn [step]; rewrite Hp; cbn [fst snd];
    rewrite ?run_Exited; reflexivity.
Qed.

Lemma poll_error_retries_or_halts_witness :
  let w := Example.world Example.noChecks in
  observations (fst (pollOnce Part000 (Some Example.url) true w 4))
  = [Fetched; Waited 20000]
  /\ snd (pollOnce Part000 (Some Example.url) true w 4) = Polling 5.
Proof.
  intros w.
  destruct (poll_error_retries_or_halts Part000 (Some Example.url) true w 4
              Example.url "123" eq_refl eq_refl (or_intror eq_refl))
    as (Hp & Ho & _).
  split; [exact Ho|]. rewrite Hp. reflexivity.
Defined.

Lemma repeats_notifications (o : Observation) (n : nat) :
  isNotified o = true ->
  filter isNotified (concat (repeat ([o] ++ [Waited interval])%list n)) = repeat o n.
Proof.
  intros Ho. induction n as [|n IH]; [reflexivity|].
  cbn [repeat concat app filter]. rewrite Ho. cbn [isNotified].
  f_equal. exact IH.
Qed.

(** C3, as the specification states it, fails: in [github-pr-monitor.js]
    the snapshot sequence not-done, not-done, done-success is followed by
    one more notification per interval; after two more turns three
    notifications have been sent. *)
Lemma github_pr_monitor_notifies_repeatedly :
  let w := Example.world Example.threePolls in
  let trace :=
    fst (monitorAllChecksStatus GithubPrMonitorJs (Some Example.url) false w 5) in
  List.length (notificationsSent trace) = 3
  /\ List.length (notificationsSent trace) <> 1
  /\ observations trace
     = [Fetched; Waited 20000; Fetched; Waited 20000; Fetched;
        Notified ("All Checks Complete " ++ glyphRecoded CheckMark)
                 ("All checks completed successfully for PR #123" ++ nl
                  ++ "Completed in 1m 0s");
        Notified ("PR Status Update " ++ bellRecoded)
                 ("All checks completed successfully for PR #123" ++ nl
                  ++ "Completed in 1m 0s");
        Waited 20000;
        Notified ("PR Status Update " ++ bellRecoded)
                 ("All checks completed successfully for PR #123" ++ nl
                  ++ "Completed in 1m 0s");
        Waited 20000].
Proof.
  vm_compute. repeat split; discriminate.
Qed.

(** C3, amended.  A run that meets [k] snapshots with checks pending and
    then one with all checks completed has, when it reaches that snapshot,
    fetched [k + 1] times with one wait of the fixed interval between
    consecutive fetches, and sent exactly one notification, of the kind
    failure when the snapshot has failures and success otherwise, whose
    message holds the pull-request number and the elapsed duration.  In
    [index.js] and the unnamed variant the loop then returns and nothing
    more happens; in [github-pr-monitor.js] the loop goes on to send one
    notification of the kind repeat per interval. *)
Theorem one_notification_when_all_completed
        (v : EntryPoint) (prUrl : option string) (verbose : bool) (w : World)
        (k : nat) (r : Result.t)
        (Hpending :
           forall j, 1 <= j <= k ->
             exists rj,
               snd (checkAllChecksStatus v prUrl true verbose (poll w j))
               = Returns (CheckResult rj)
               /\ Result.completed rj = false)
        (Hdone : snd (checkAllChecksStatus v prUrl true verbose (poll w (S k)))
                 = Returns (CheckResult r))
        (Hcompleted : Result.completed r = true) :
  let duration := formatDuration (startTime w) (endTime w (S k)) in
  let kind := if Result.hasFailures r then "failure" else "success" in
  let message :=
    ((if Result.hasFailures r
      then "All checks completed with failures for PR #"
      else "All checks completed successfully for PR #") ++ Result.prNumber r)
    ++ nl ++ "Completed in " ++ duration in
  let first := observations (sendNotification v message kind) in
  let trace := fst (run v prUrl verbose w (S k) (Polling 0)) in
  observations trace = (pollsAndWaits k ++ Fetched :: first)%list
  /\ notificationsSent trace = first
  /\ List.length first = 1
  /\ match v with
     | IndexJs | Part000 =>
         forall extra,
           run v prUrl verbose w (S k + extra) (Polling 0) = (trace, Returned)
     | GithubPrMonitorJs =>
         forall extra,
           observations (fst (run v prUrl verbose w (S k + extra) (Polling 0)))
           = (observations trace
              ++ concat (repeat [Notified ("PR Status Update " ++ bellRecoded)
                                          (repeatMessage v r duration kind);
                                 Waited 20000]
                                extra))%list
           /\ notificationsSent
                (fst (run v prUrl verbose w (S k + extra) (Polling 0)))
              = (first
                 ++ repeat (Notified ("PR Status Update " ++ bellRecoded)
                                     (repeatMessage v r duration kind))
                           extra)%list
           /\ snd (run v prUrl verbose w (S k + extra) (Polling 0))
              = Notifying r duration kind extra
     end.
Proof.
  intros duration kind message first trace.
  assert (message = firstMessage w (S k) r) as Em.
  { unfold message, firstMessage, completionMessage, duration.
    now destruct (Result.hasFailures r). }
  assert (kind = completionType (Result.hasFailures r)) as Ek by reflexivity.
  destruct (run_pending v prUrl verbose w k 0) as [Ho Hs].
  { intros j Hj. apply Hpending. lia. }
  simpl in Hs.
  destruct (pollOnce_completed v prUrl verbose w k r Hdone Hcompleted) as [Hc Hn].
  rewrite <- Em, <- Ek in Hc. fold first in Hc. fold duration in Hn.
  rewrite <- Ek in Hn.
  assert (run v prUrl verbose w (S k) (Polling 0)
          = ((fst (run v prUrl verbose w k (Polling 0))
              ++ fst (pollOnce v prUrl verbose w k))%list,
             snd (pollOnce v prUrl verbose w k))) as Hrun.
  { replace (S k) with (k + 1) by lia. rewrite run_add, Hs.
    simpl. destruct (pollOnce v prUrl verbose w k). simpl.
    now rewrite app_nil_r. }
  assert (observations trace = (pollsAndWaits k ++ Fetched :: first)%list) as Htrace.
  { unfold trace. rewrite Hrun. cbn [fst]. now rewrite observations_app, Ho, Hc. }
  assert (exists title, first = [Notified title message]) as [title Hfirst].
  { destruct (sendNotification_observations v message kind) as (title & _ & E).
    exists title. exact E. }
  assert (notificationsSent trace = first) as Hsent.
  { unfold notificationsSent. rewrite Htrace, filter_app.
    rewrite pollsAndWaits_no_notification, Hfirst. reflexivity. }
  split; [exact Htrace|]. split; [exact Hsent|].
  split; [now rewrite Hfirst|].
  destruct v; intros extra; rewrite run_add;
    fold trace; rewrite Hrun; cbn [snd]; rewrite Hn.
  - now rewrite run_Returned, app_nil_r.
  - cbn [fst snd].
    destruct (run_Notifying GithubPrMonitorJs prUrl verbose w r duration kind
                extra 0) as [Hrep Hstate].
    split; [|split].
    + rewrite observations_app, Hrep. reflexivity.
    + unfold notificationsSent in *.
      rewrite observations_app, filter_app, Hsent, Hrep. f_equal.
      apply (repeats_notifications
               (Notified ("PR Status Update " ++ bellRecoded)
                         (repeatMessage GithubPrMonitorJs r duration kind))).
      reflexivity.
    + exact Hstate.
  - now rewrite run_Returned, app_nil_r.
Qed.

Lemma one_notification_when_all_completed_witness :
  let w := Example.world Example.threePolls in
  observations (fst (run IndexJs (Some Example.url) false w 3 (Polling 0)))
  = [Fetched; Waited 20000; Fetched; Waited 20000; Fetched;
     Notified ("All Checks Complete " ++ glyphUtf8 CheckMark)
              ("All checks completed successfully for PR #123" ++ nl
               ++ "Completed in 1m 0s")]
  /\ run IndexJs (Some Example.url) false w (3 + 4) (Polling 0)
     = (fst (run IndexJs (Some Example.url) false w 3 (Polling 0)), Returned).
Proof.
  intros w.
  destruct (one_notification_when_all_completed IndexJs (Some Example.url) false w 2
              (Result.mk true false Example.doneSuccess "123"
                 (Summary.mk 2 [] ["lint"; "unit"] [])))
    as (Ho & _ & _ & Hstop).
  - intros j Hj. assert (j = 1 \/ j = 2) as [-> | ->] by lia;
      eexists; split; reflexivity.
  - reflexivity.
  - reflexivity.
  - split; [exact Ho | exact (Hstop 4)].
Defined.

(** ** Single mode *)

Lemma supplied_url (v : EntryPoint) (url : string) (p : PollInput) :
  url <> EmptyString -> resolvePrUrl v (Some url) p = inr url.
Proof.
  intros Hne. destruct url as [|c rest]; [congruence|]. reflexivity.
Qed.

(** What a failing check does in single mode: it reports on the error
    stream and returns the error result. *)
Lemma failing_check
      (v : EntryPoint) (url : string) (verbose : bool) (p : PollInput) :
  url <> EmptyString ->
  matchPull url = None \/ (exists message, gh p = Throws message) ->
  snd (checkAllChecksStatus v (Some url) true verbose p) = Returns ErrorResult
  /\ ~ In (ProcessExit 1) (fst (checkAllChecksStatus v (Some url) true verbose p))
  /\ exists line,
      In (ConsoleError line) (fst (checkAllChecksStatus v (Some url) true verbose p)).
Proof.
  intros Hne Hfail. unfold checkAllChecksStatus.
  rewrite (supplied_url v url p Hne).
  destruct (matchPull url) as [prNumber|] eqn:Hm.
  - destruct Hfail as [Hfail | [message Hg]]; [discriminate|]. rewrite Hg.
    cbn [fst snd]. split; [reflexivity|]. split.
    + simpl. intros [H | [H | [H | [H | []]]]]; discriminate.
    + eexists. simpl. right. right. left. reflexivity.
  - cbn [fst snd]. split; [reflexivity|]. split.
    + simpl. intros [H | []]; discriminate.
    + eexists. left. reflexivity.
Qed.

(** C7, as the specification states it, fails: in single mode a failing
    fetch, or a reference that does not parse, leaves exit code 0. *)
Lemma single_mode_failure_exits_zero :
  let w := Example.world Example.ghFails in
  snd (checkAllChecksStatus IndexJs (Some Example.url) true false (poll w 1))
  = Returns ErrorResult
  /\ exitCode (snd (main IndexJs ["node"; "index.js"; Example.url; "--single"] w 0))
     = Some 0%Z
  /\ exitCode (snd (main GithubPrMonitorJs
                      ["node"; "github-pr-monitor.js"; "not-a-pull-request";
                       "--single"] w 0))
     = Some 0%Z
  /\ exitCode (snd (main IndexJs ["node"; "index.js"; Example.url; "--single"] w 0))
     <> Some 1%Z.
Proof.
  repeat split; try reflexivity. vm_compute. discriminate.
Qed.

(** C7, amended.  In single mode, when a pull-request reference is
    supplied and the fetch fails or the reference does not parse, the
    check reports the failure on the error stream and returns the error
    result, which the caller drops: the process does not call
    [process.exit(1)] and ends with exit code 0. *)
Theorem single_mode_error_exit_code
        (v : EntryPoint) (argv : list string) (w : World) (fuel : nat) (url : string)
        (Hsingle : includes argv "--single" = true)
        (Hurl : nth_error argv 2 = Some url)
        (Hne : url <> EmptyString)
        (Hfail : matchPull url = None
                 \/ exists message, gh (poll w 1) = Throws message) :
  snd (checkAllChecksStatus v (Some url) true (includes argv "--verbose") (poll w 1))
  = Returns ErrorResult
  /\ (exists line,
        In (ConsoleError line)
           (fst (checkAllChecksStatus v (Some url) true (includes argv "--verbose")
                   (poll w 1))))
  /\ ~ In (ProcessExit 1) (fst (main v argv w fuel))
  /\ exitCode (snd (main v argv w fuel)) = Some 0%Z.
Proof.
  destruct (failing_check v url (includes argv "--verbose") (poll w 1) Hne Hfail)
    as (Herr & Hexit & Hline).
  split; [exact Herr|]. split; [exact Hline|].
  assert (singleMode v (Some url) (includes argv "--verbose") (poll w 1)
          = (fst (checkAllChecksStatus v (Some url) true (includes argv "--verbose")
                    (poll w 1)), Returned)) as Hs.
  { unfold singleMode.
    destruct (checkAllChecksStatus v (Some url) true (includes argv "--verbose")
                (poll w 1)) as [out ret].
    simpl in Herr. now subst ret. }
  unfold main. rewrite Hsingle, Hurl, Hs.
  destruct v; try destruct (includes argv "--help" || includes argv "-h");
    cbn [fst snd exitCode]; (split; [|reflexivity]); try exact Hexit;
    unfold helpLines; simpl; intuition discriminate.
Qed.

Lemma single_mode_error_exit_code_witness :
  let w := Example.world Example.ghFails in
  let argv := ["node"; "gh-check.js"; Example.url; "--single"; "--verbose"] in
  snd (checkAllChecksStatus Part000 (Some Example.url) true true (poll w 1))
  = Returns ErrorResult
  /\ exitCode (snd (main Part000 argv w 0)) = Some 0%Z.
Proof.
  intros w argv.
  destruct (single_mode_error_exit_code Part000 argv w 0 Example.url
              eq_refl eq_refl) as (Herr & _ & _ & Hcode).
  - discriminate.
  - right. eexists. reflexivity.
  - split; [exact Herr | exact Hcode].
Defined.

(** ** Checks in unknown states *)

Lemma all_unknown_classes (checks : list Check) :
  (forall c, In c checks -> classify (statusOf c) = None) ->
  forall k, forallb (fun c => negb (classifiedAs k c)) checks = true
            /\ existsb (classifiedAs k) checks = false
            /\ namesOf k checks = [].
Proof.
  intros H k. unfold namesOf.
  induction checks as [|c checks IH]; [repeat split|].
  destruct IH as (Ha & He & Hn); [intros c' Hc'; apply H; now right|].
  simpl. unfold classifiedAs at 1 3 5. rewrite (H c (or_introl eq_refl)).
  simpl. auto.
Qed.

(** C10. When every check of a non-empty list has a state outside the
    table (a missing or empty state counts as "unknown"), the snapshot has
    the all-completed flag set, no failures and three empty buckets, and
    the poll of the monitor loop that meets it sends the success
    notification and leaves the polling state. *)
Theorem all_unknown_is_terminal_success
        (v : EntryPoint) (prUrl : option string) (verbose : bool) (w : World)
        (n : nat) (url prNumber : string) (checks : list Check)
        (Hurl : resolvePrUrl v prUrl (poll w (S n)) = inr url)
        (Hnum : matchPull url = Some prNumber)
        (Hgh : gh (poll w (S n)) = Parsed checks)
        (Hne : checks <> [])
        (Hunknown : forall c, In c checks -> classify (statusOf c) = None) :
  let duration := formatDuration (startTime w) (endTime w (S n)) in
  let r := Result.mk true false checks prNumber
                     (Summary.mk (List.length checks) [] [] []) in
  snd (checkAllChecksStatus v prUrl true verbose (poll w (S n)))
  = Returns (CheckResult r)
  /\ notificationsSent (fst (pollOnce v prUrl verbose w n))
     = observations
         (sendNotification v
            ("All checks completed successfully for PR #" ++ prNumber ++ nl
             ++ "Completed in " ++ duration)
            "success")
  /\ snd (pollOnce v prUrl verbose w n)
     = match v with
       | GithubPrMonitorJs => Notifying r duration "success" 0
       | IndexJs | Part000 => Returned
       end.
Proof.
  intros duration r.
  assert (snd (checkAllChecksStatus v prUrl true verbose (poll w (S n)))
          = Returns (CheckResult r)) as Hr.
  { rewrite (checkAllChecksStatus_parsed _ _ _ _ _ _ _ _ Hurl Hnum Hgh).
    rewrite (aggregate_nonempty _ _ _ _ _ Hne).
    destruct (all_unknown_classes checks Hunknown Pending) as (-> & _ & ->).
    destruct (all_unknown_classes checks Hunknown Failure) as (_ & -> & ->).
    destruct (all_unknown_classes checks Hunknown Success) as (_ & _ & ->).
    reflexivity. }
  split; [exact Hr|].
  destruct (pollOnce_completed v prUrl verbose w n r Hr eq_refl) as [Ho Hs].
  split; [|exact Hs].
  unfold notificationsSent. rewrite Ho.
  assert (firstMessage w (S n) r
          = "All checks completed successfully for PR #" ++ prNumber ++ nl
            ++ "Completed in " ++ duration) as ->.
  { unfold firstMessage, completionMessage, r, duration. cbn [Result.hasFailures
      Result.prNumber]. generalize (nl ++ "Completed in "
      ++ formatDuration (startTime w) (endTime w (S n))). intros tail.
    simpl. reflexivity. }
  cbn [Result.hasFailures r completionType].
  destruct (sendNotification_observations v
              ("All checks completed successfully for PR #" ++ prNumber ++ nl
               ++ "Completed in " ++ duration) "success") as (title & _ & ->).
  reflexivity.
Qed.

Lemma all_unknown_is_terminal_success_witness :
  let w := Example.world Example.unknownOnly in
  notificationsSent (fst (pollOnce IndexJs (Some Example.url) false w 0))
  = [Notified ("All Checks Complete " ++ glyphUtf8 CheckMark)
              ("All checks completed successfully for PR #123" ++ nl
               ++ "Completed in 20s")]
  /\ snd (pollOnce IndexJs (Some Example.url) false w 0) = Returned.
Proof.
  intros w.
  destruct (all_unknown_is_terminal_success IndexJs (Some Example.url) false w 0
              Example.url "123" Example.allUnknown eq_refl eq_refl eq_refl)
    as (_ & Hsent & Hnext).
  - discriminate.
  - intros c [<- | [<- | [<- | []]]]; reflexivity.
  - split; [exact Hsent | exact Hnext].
Defined.

(** * Further properties of the code *)

(** ** The pull-request reference *)

Lemma substring_all (s : string) : substring 0 (String.length s) s = s.
Proof.
  induction s as [|c s IH]; [reflexivity|]. simpl. now rewrite IH.
Qed.

Lemma prefix_split (p s : string) :
  prefix p s = true ->
  s = p ++ substring (String.length p) (String.length s - String.length p) s.
Proof.
  revert s. induction p as [|a p IH]; intros s H.
  - simpl. now rewrite Nat.sub_0_r, substring_all.
  - destruct s as [|b s]; [discriminate|]. simpl in H.
    destruct (ascii_dec a b) as [->|]; [|discriminate].
    simpl. f_equal. now apply IH.
Qed.

Lemma prefix_append (p r : string) : prefix p (p ++ r) = true.
Proof.
  induction p as [|a p IH]; simpl; [now destruct r|].
  destruct (ascii_dec a a); [exact IH | congruence].
Qed.

Lemma substring_append (p r : string) :
  substring (String.length p) (String.length (p ++ r) - String.length p) (p ++ r) = r.
Proof.
  induction p as [|a p IH]; simpl.
  - now rewrite Nat.sub_0_r, substring_all.
  - exact IH.
Qed.

Lemma takeDigits_split (s : string) :
  exists post,
    s = takeDigits s ++ post
    /\ allDigits (takeDigits s) = true
    /\ startsWithDigit post = false.
Proof.
  induction s as [|c s (post & E & Ha & Hp)].
  - exists EmptyString. repeat split.
  - simpl. destruct (isDigit c) eqn:Hc.
    + exists post. simpl. rewrite Hc, Ha. repeat split; [congruence | exact Hp].
    + exists (String c s). simpl. now rewrite Hc.
Qed.

Lemma matchPullHere_some (s d : string) :
  matchPullHere s = Some d ->
  d <> EmptyString
  /\ allDigits d = true
  /\ exists post, s = "/pull/" ++ d ++ post /\ startsWithDigit post = false.
Proof.
  unfold matchPullHere. destruct (prefix "/pull/" s) eqn:Hp; [|discriminate].
  apply prefix_split in Hp. simpl String.length in Hp.
  set (r := substring 6 (String.length s - 6) s) in *.
  destruct (takeDigits_split r) as (post & Er & Ha & Hs).
  destruct (takeDigits r) as [|c digits] eqn:Et; [discriminate|].
  intros [= <-]. split; [discriminate|]. split; [exact Ha|].
  exists post. split; [|exact Hs]. rewrite Hp at 1. now rewrite Er at 1.
Qed.

Lemma matchPullHere_digit (c : ascii) (post : string) :
  isDigit c = true -> matchPullHere ("/pull/" ++ String c post) <> None.
Proof.
  intros Hc. unfold matchPullHere.
  rewrite (prefix_append "/pull/" (String c post)).
  change 6 with (String.length "/pull/").
  rewrite (substring_append "/pull/" (String c post)).
  simpl. now rewrite Hc.
Qed.

Lemma pullAt_0 (s : string) : pullAt 0 s -> matchPullHere s <> None.
Proof.
  intros (pre & c & post & -> & Hc & Hl).
  destruct pre; [|discriminate]. now apply matchPullHere_digit.
Qed.

Lemma pullAt_S (n : nat) (a : ascii) (s : string) :
  pullAt (S n) (String a s) <-> pullAt n s.
Proof.
  split.
  - intros (pre & c & post & E & Hc & Hl).
    destruct pre as [|b pre]; [discriminate|]. simpl in E, Hl.
    injection E as _ E. injection Hl as Hl. now exists pre, c, post.
  - intros (pre & c & post & -> & Hc & Hl).
    exists (String a pre), c, post. simpl. auto.
Qed.

Lemma matchPull_capture (s d : string) (H : matchPull s = Some d) :
  d <> EmptyString
  /\ allDigits d = true
  /\ exists pre post,
      s = pre ++ "/pull/" ++ d ++ post
      /\ startsWithDigit post = false
      /\ forall n, n < String.length pre -> ~ pullAt n s.
Proof.
  induction s as [|a s IH]; [discriminate|].
  cbn [matchPull] in H.
  destruct (matchPullHere (String a s)) as [d'|] eqn:Hh.
  - injection H as ->.
    destruct (matchPullHere_some _ _ Hh) as (Hne & Ha & post & E & Hp).
    split; [exact Hne|]. split; [exact Ha|].
    exists EmptyString, post. split; [exact E|]. split; [exact Hp|].
    simpl. intros n Hn. lia.
  - destruct (IH H) as (Hne & Ha & pre & post & E & Hp & Hleft).
    split; [exact Hne|]. split; [exact Ha|].
    exists (String a pre), post.
    split; [change (String a s = String a (pre ++ "/pull/" ++ d ++ post)); now f_equal|].
    split; [exact Hp|].
    intros [|n] Hn Hat.
    + apply pullAt_0 in Hat. congruence.
    + apply pullAt_S in Hat. simpl in Hn. apply (Hleft n); [lia | exact Hat].
Qed.

(** The capture is a non-empty run of decimal digits; it stands right
    after the leftmost ["/pull/"] that a digit follows, and it is the
    whole run of digits there. *)
Theorem matchPull_some (s d : string) (H : matchPull s = Some d) :
  d <> EmptyString
  /\ allDigits d = true
  /\ exists pre post,
      s = pre ++ "/pull/" ++ d ++ post
      /\ startsWithDigit post = false
      /\ forall n, n < String.length pre -> ~ pullAt n s.
Proof. exact (matchPull_capture s d H). Qed.

Lemma matchPull_some_witness :
  matchPull "https://github.com/owner/repo/pull/123/files" = Some "123"
  /\ allDigits "123" = true.
Proof.
  split; [reflexivity|].
  exact (proj1 (proj2 (matchPull_some
                         "https://github.com/owner/repo/pull/123/files" "123"
                         eq_refl))).
Defined.

Lemma matchPull_pullAt (n : nat) (s : string) : pullAt n s -> matchPull s <> None.
Proof.
  revert s. induction n as [|n IH]; intros s Hat.
  - pose proof (pullAt_0 s Hat) as Hh.
    destruct s as [|a s]; [destruct Hat as ([|] & ? & ? & ? & ? & ?); discriminate|].
    cbn [matchPull]. destruct (matchPullHere (String a s)); congruence.
  - destruct s as [|a s].
    + destruct Hat as ([|] & ? & ? & ? & ? & ?); discriminate.
    + apply pullAt_S in Hat. cbn [matchPull].
      destruct (matchPullHere (String a s)); [discriminate|]. now apply IH.
Qed.

(** The reference is refused exactly when it holds no ["/pull/"] followed
    by a decimal digit, anywhere. *)
Theorem matchPull_none_iff (s : string) :
  matchPull s = None <-> forall n, ~ pullAt n s.
Proof.
  split.
  - intros H n Hat. now apply (matchPull_pullAt n s).
  - intros H. destruct (matchPull s) as [d|] eqn:E; [|reflexivity].
    destruct (matchPull_capture s d E) as (Hne & _ & pre & post & Es & _ & _).
    exfalso. apply (H (String.length pre)).
    destruct d as [|c d]; [congruence|].
    exists pre, c, (d ++ post). split; [exact Es|]. split; [|reflexivity].
    destruct (matchPull_capture s (String c d) E) as (_ & Ha & _).
    simpl in Ha. now apply andb_true_iff in Ha.
Qed.

(** ** Durations *)

(** For an end time not before the start time, the seconds shown are
    between 0 and 59, the minutes are shown exactly from one minute on, and
    minutes and seconds together are the whole seconds of the duration. *)
Theorem formatDuration_forward (startTime endTime : Z)
        (H : (startTime <= endTime)%Z) :
  let durationMs := (endTime - startTime)%Z in
  exists minutes seconds : Z,
    (0 <= minutes /\ 0 <= seconds < 60
     /\ minutes * 60 + seconds = durationMs / 1000)%Z
    /\ formatDuration startTime endTime
       = if (durationMs <? 60000)%Z
         then showZ seconds ++ "s"
         else showZ minutes ++ "m " ++ showZ seconds ++ "s".
Proof.
  intros d. assert (0 <= d)%Z as Hd by (unfold d; lia).
  exists (d / 60000)%Z, (d mod 60000 / 1000)%Z.
  assert (0 <= d mod 60000 < 60000)%Z as Hm by (apply Z.mod_pos_bound; lia).
  split; [split; [|split]|].
  - apply Z.div_pos; lia.
  - split; [apply Z.div_pos; lia|]. apply Z.div_lt_upper_bound; lia.
  - rewrite (Z.div_mod d 60000) at 3 by lia.
    replace (60000 * (d / 60000) + d mod 60000)%Z
      with (d mod 60000 + (d / 60000 * 60) * 1000)%Z by lia.
    rewrite Z.div_add by lia. lia.
  - unfold formatDuration. fold d. rewrite Z.rem_mod_nonneg by lia.
    destruct (Z.ltb_spec d 60000) as [Hlt | Hge].
    + rewrite (Z.div_small d 60000) by lia. reflexivity.
    + assert (1 <= d / 60000)%Z as H1 by (apply Z.div_le_lower_bound; lia).
      destruct (Z.ltb_spec 0 (d / 60000)) as [_ | Hle]; [reflexivity | lia].
Qed.

Lemma formatDuration_forward_witness :
  exists minutes seconds : Z,
    (minutes * 60 + seconds = 3725)%Z
    /\ formatDuration 1000 3726999 = showZ minutes ++ "m " ++ showZ seconds ++ "s".
Proof.
  destruct (formatDuration_forward 1000 3726999) as (m & s & (_ & _ & Hs) & Hf);
    [lia|].
  exists m, s. split; [exact Hs | exact Hf].
Defined.

(** When the clock reads an end time before the start time, no minutes are
    shown whatever the gap: the text is a number of seconds between -60 and
    0 followed by [s]. *)
Theorem formatDuration_backward (startTime endTime : Z)
        (H : (endTime < startTime)%Z) :
  exists seconds : Z,
    (-60 <= seconds <= 0)%Z
    /\ formatDuration startTime endTime = showZ seconds ++ "s".
Proof.
  set (d := (endTime - startTime)%Z). assert (d < 0)%Z as Hd by (unfold d; lia).
  exists (Z.rem d 60000 / 1000)%Z.
  assert ((-60 <= Z.rem d 60000 / 1000 <= 0)%Z /\ (d / 60000 < 0)%Z) as [Hs Hq].
  { clearbody d. Z.to_euclidean_division_equations. lia. }
  split; [exact Hs|].
  unfold formatDuration. fold d.
  destruct (Z.ltb_spec 0 (d / 60000)) as [Hpos | _]; [lia | reflexivity].
Qed.

Lemma formatDuration_backward_witness :
  exists seconds : Z,
    (-60 <= seconds <= 0)%Z /\ formatDuration 120500 0 = showZ seconds ++ "s".
Proof.
  apply (formatDuration_backward 120500 0). lia.
Defined.

(** ** What one poll prints and does *)

Lemma forEachCheck_out (v : EntryPoint) (showOutput verbose : bool)
      (checks : list Check) (t : Tally) (out : list Event) :
  snd (forEachCheck v showOutput verbose checks (t, out))
  = (out ++ flat_map (checkLines v showOutput verbose) checks)%list.
Proof.
  revert t out. induction checks as [|c checks IH]; intros t out.
  - simpl. now rewrite app_nil_r.
  - unfold forEachCheck in *. simpl. unfold visit at 2. simpl.
    now rewrite IH, <- app_assoc.
Qed.

Lemma checkLines_logs (v : EntryPoint) (showOutput verbose : bool) (c : Check) :
  forallb isConsoleLog (checkLines v showOutput verbose c) = true
  /\ (showOutput = false -> checkLines v showOutput verbose c = []).
Proof.
  unfold checkLines.
  destruct showOutput, verbose, (truthy (description c)), (truthy (link c));
    split; try reflexivity; discriminate.
Qed.

(** The aggregator only writes to the console, and writes nothing when
    [showOutput] is off. *)
Lemma aggregate_logs (v : EntryPoint) (showOutput verbose : bool)
      (prNumber : string) (checks : list Check) :
  forallb isConsoleLog (fst (aggregate v showOutput verbose prNumber checks)) = true
  /\ (showOutput = false -> fst (aggregate v showOutput verbose prNumber checks) = []).
Proof.
  destruct checks as [|c checks].
  - simpl. destruct showOutput; split; try reflexivity; discriminate.
  - unfold aggregate.
    match goal with
    | |- context [forEachCheck ?a ?b ?d ?l (?t, ?o)] =>
        pose proof (forEachCheck_out a b d l t o) as Hout;
        destruct (forEachCheck a b d l (t, o)) as [t' out]
    end.
    cbn [fst snd] in *. subst out.
    assert (forallb isConsoleLog
              (flat_map (checkLines v showOutput verbose) (c :: checks)) = true
            /\ (showOutput = false
                -> flat_map (checkLines v showOutput verbose) (c :: checks) = []))
      as [Hl He].
    { generalize (c :: checks). intros l. induction l as [|x l [IH1 IH2]].
      - split; reflexivity.
      - destruct (checkLines_logs v showOutput verbose x) as [H1 H2].
        simpl. rewrite forallb_app, H1, IH1. split; [reflexivity|].
        intros E. now rewrite (H2 E), (IH2 E). }
    split.
    + rewrite forallb_app, Hl. now destruct showOutput.
    + intros E. rewrite (He E). now subst showOutput.
Qed.

Lemma logs_no_exit (out : list Event) :
  forallb isConsoleLog out = true -> existsb isProcessExit out = false.
Proof.
  induction out as [|e out IH]; [reflexivity|].
  simpl. rewrite andb_true_iff. intros [He Ho]. rewrite (IH Ho).
  now destruct e.
Qed.

(** Once the URL is known, a poll returns and does not end the process. *)
Lemma poll_with_url (v : EntryPoint) (prUrl : option string)
      (showOutput verbose : bool) (p : PollInput) (url : string) :
  resolvePrUrl v prUrl p = inr url ->
  existsb isProcessExit (fst (checkAllChecksStatus v prUrl showOutput verbose p))
  = false
  /\ exists o, snd (checkAllChecksStatus v prUrl showOutput verbose p) = Returns o.
Proof.
  intros Hr. unfold checkAllChecksStatus. rewrite Hr.
  destruct (matchPull url) as [prNumber|]; [|split; [reflexivity | eexists; reflexivity]].
  destruct (gh p) as [message|checks].
  - cbn [fst snd]. rewrite existsb_app. split; [now destruct showOutput | eexists; reflexivity].
  - destruct (aggregate_logs v showOutput verbose prNumber checks) as [Hl _].
    apply logs_no_exit in Hl.
    destruct (aggregate v showOutput verbose prNumber checks) as [out o].
    cbn [fst snd] in *. rewrite existsb_app. simpl. rewrite Hl.
    split; [now destruct showOutput | eexists; reflexivity].
Qed.

(** A poll calls [process.exit] only through the interactive selection,
    and then does nothing else. *)
Lemma poll_events (v : EntryPoint) (prUrl : option string)
      (showOutput verbose : bool) (p : PollInput) :
  match snd (checkAllChecksStatus v prUrl showOutput verbose p) with
  | Exits code =>
      fst (checkAllChecksStatus v prUrl showOutput verbose p) = [ProcessExit code]
      /\ selection p = SelectionExits code
      /\ truthy prUrl = false
      /\ v <> IndexJs
  | Returns _ =>
      existsb isProcessExit (fst (checkAllChecksStatus v prUrl showOutput verbose p))
      = false
  end.
Proof.
  destruct (resolvePrUrl v prUrl p) as [[out ret]|url] eqn:Hr.
  - unfold checkAllChecksStatus. rewrite Hr. cbn [fst snd].
    unfold resolvePrUrl in Hr. destruct (truthy prUrl); [discriminate|].
    destruct v; [now injection Hr as <- <-| |];
      (destruct (selection p) as [u|code];
       [destruct (truthy u); [discriminate | now injection Hr as <- <-]
       |injection Hr as <- <-; repeat split; discriminate]).
  - destruct (poll_with_url v prUrl showOutput verbose p url Hr) as [He [o Ho]].
    now rewrite Ho.
Qed.

(** A poll fetches at most once, and neither waits nor notifies. *)
Lemma poll_observations (v : EntryPoint) (prUrl : option string)
      (showOutput verbose : bool) (p : PollInput) :
  observations (fst (checkAllChecksStatus v prUrl showOutput verbose p)) = []
  \/ observations (fst (checkAllChecksStatus v prUrl showOutput verbose p)) = [Fetched].
Proof.
  destruct (snd (checkAllChecksStatus v prUrl showOutput verbose p)) as [code|[|r]] eqn:E.
  - pose proof (poll_events v prUrl showOutput verbose p) as H. rewrite E in H.
    destruct H as (-> & _). now left.
  - unfold checkAllChecksStatus in *.
    destruct (resolvePrUrl v prUrl p) as [[out ret]|url] eqn:Hr.
    + unfold resolvePrUrl in Hr. destruct (truthy prUrl); [discriminate|].
      destruct v; [injection Hr as <- <-; now left| |];
        (destruct (selection p) as [u|code];
         [destruct (truthy u); [discriminate | injection Hr as <- <-; now left]
         |injection Hr as <- <-; now left]).
    + destruct (matchPull url) as [prNumber|]; [|now left].
      destruct (gh p) as [message|checks].
      * right. cbn [fst]. rewrite observations_app. now destruct showOutput.
      * pose proof (aggregate_observations v showOutput verbose prNumber checks) as Ho.
        destruct (aggregate v showOutput verbose prNumber checks) as [out o].
        right. cbn [fst] in *. rewrite observations_app. simpl.
        change (flat_map observe out) with (observations out). rewrite Ho.
        now destruct showOutput.
  - right. now apply (snapshot_poll_observations v prUrl showOutput verbose p r).
Qed.

(** ** Every turn of the loop *)

Lemma observations_header (w : World) (n : nat) (out : list Event) :
  observations (pollHeader w n :: out) = observations out.
Proof. reflexivity. Qed.

(** The four ways a turn of the polling loop can end. *)
Lemma pollOnce_cases (v : EntryPoint) (prUrl : option string) (verbose : bool)
      (w : World) (n : nat) :
  let ret := snd (checkAllChecksStatus v prUrl true verbose (poll w (S n))) in
  let obs := observations (fst (pollOnce v prUrl verbose w n)) in
  match snd (pollOnce v prUrl verbose w n) with
  | Polling m =>
      m = S n
      /\ (obs = [Fetched; Waited interval] \/ obs = [Waited interval])
      /\ (ret = Returns ErrorResult /\ v <> GithubPrMonitorJs
          \/ exists r, ret = Returns (CheckResult r) /\ Result.completed r = false)
  | Returned =>
      v <> GithubPrMonitorJs
      /\ exists r title message,
          ret = Returns (CheckResult r) /\ Result.completed r = true
          /\ obs = [Fetched; Notified title message]
  | Notifying r _ _ count =>
      v = GithubPrMonitorJs /\ count = 0
      /\ ret = Returns (CheckResult r) /\ Result.completed r = true
      /\ exists title message, obs = [Fetched; Notified title message]
  | Exited code =>
      (obs = [] \/ obs = [Fetched])
      /\ (v = GithubPrMonitorJs /\ code = 1%Z /\ ret = Returns ErrorResult
          \/ ret = Exits code)
  end.
Proof.
  intros ret obs.
  destruct ret as [code|[|r]] eqn:E; unfold ret in E.
  - pose proof (poll_events v prUrl true verbose (poll w (S n))) as He.
    rewrite E in He. destruct He as (Hout & _).
    unfold obs, pollOnce.
    destruct (checkAllChecksStatus v prUrl true verbose (poll w (S n))) as [out r'].
    cbn [fst snd] in *. subst. cbn. split; [now left | now right].
  - pose proof (pollOnce_error v prUrl verbose w n E) as Hp.
    pose proof (poll_observations v prUrl true verbose (poll w (S n))) as Ho.
    unfold obs. rewrite Hp. cbn [fst snd].
    rewrite observations_header, observations_app.
    destruct v; cbn [errorBranch fst snd];
      destruct Ho as [-> | ->]; simpl;
      repeat split; auto; try discriminate;
        try (left; split; [reflexivity | discriminate]).
  - destruct (Result.completed r) eqn:Hc.
    + destruct (pollOnce_completed v prUrl verbose w n r E Hc) as [Ho Hs].
      destruct (sendNotification_observations v (firstMessage w (S n) r)
                  (completionType (Result.hasFailures r))) as (title & _ & Hn).
      unfold obs. rewrite Hs, Ho, Hn.
      destruct v; repeat split; try discriminate; eauto 6.
    + destruct (pollOnce_pending v prUrl verbose w n r E Hc) as [Ho Hs].
      unfold obs. rewrite Hs, Ho. repeat split; eauto.
Qed.

Lemma notifyOnce_observations (v : EntryPoint) (w : World) (r : Result.t)
      (duration type : string) (count : nat) :
  exists title,
    observations (fst (notifyOnce v w r duration type count))
    = [Notified title (repeatMessage v r duration type); Waited interval].
Proof.
  destruct (sendNotification_observations v (repeatMessage v r duration type) "repeat")
    as (title & Hs & _).
  exists title. unfold notifyOnce. cbn [fst]. now rewrite Hs.
Qed.

Lemma run_Polling (v : EntryPoint) (prUrl : option string) (verbose : bool)
      (w : World) (fuel n : nat) :
  run v prUrl verbose w (S fuel) (Polling n)
  = ((fst (pollOnce v prUrl verbose w n)
      ++ fst (run v prUrl verbose w fuel (snd (pollOnce v prUrl verbose w n))))%list,
     snd (run v prUrl verbose w fuel (snd (pollOnce v prUrl verbose w n)))).
Proof. now rewrite run_S. Qed.

Lemma monitor_run (v : EntryPoint) (prUrl : option string) (verbose : bool)
      (w : World) (fuel : nat) :
  observations (fst (monitorAllChecksStatus v prUrl verbose w fuel))
  = observations (fst (run v prUrl verbose w fuel (Polling 0)))
  /\ snd (monitorAllChecksStatus v prUrl verbose w fuel)
     = snd (run v prUrl verbose w fuel (Polling 0)).
Proof.
  unfold monitorAllChecksStatus.
  now destruct (run v prUrl verbose w fuel (Polling 0)).
Qed.

Lemma run_waits (v : EntryPoint) (prUrl : option string) (verbose : bool)
      (w : World) (fuel : nat) (m : Machine) (ms : Z) :
  In (Waited ms) (observations (fst (run v prUrl verbose w fuel m))) -> ms = interval.
Proof.
  revert m. induction fuel as [|fuel IH]; intros m; [intros []|].
  rewrite run_S. cbn [fst]. rewrite observations_app, in_app_iff.
  intros [H | H]; [|now apply IH in H].
  destruct m as [n|r d ty c| |code]; cbn [step] in H.
  - pose proof (pollOnce_cases v prUrl verbose w n) as Hc. cbv zeta in Hc.
    destruct (snd (pollOnce v prUrl verbose w n)); cbn iota beta in Hc.
    + destruct Hc as (_ & [E | E] & _); rewrite E in H; simpl in H;
        intuition congruence.
    + destruct Hc as (_ & _ & _ & _ & t & msg & E); rewrite E in H; simpl in H;
        intuition congruence.
    + destruct Hc as (_ & r & t & msg & _ & _ & E); rewrite E in H; simpl in H;
        intuition congruence.
    + destruct Hc as ([E | E] & _); rewrite E in H; simpl in H;
        intuition congruence.
  - destruct (notifyOnce_observations v w r d ty c) as (t & E).
    rewrite E in H. simpl in H. intuition congruence.
  - destruct H.
  - destruct H.
Qed.

Lemma in_observations (trace : list Event) (ms : Z) :
  In (SetTimeout ms) trace -> In (Waited ms) (observations trace).
Proof.
  intros H. unfold observations. apply in_flat_map.
  exists (SetTimeout ms). split; [exact H | now left].
Qed.

(** Every delay the monitor asks for, in any of the three files and on
    any input, is the fixed interval of 20000 ms. *)
Theorem every_wait_is_the_interval
        (v : EntryPoint) (prUrl : option string) (verbose : bool) (w : World)
        (fuel : nat) (ms : Z)
        (H : In (SetTimeout ms) (fst (monitorAllChecksStatus v prUrl verbose w fuel))) :
  ms = 20000%Z.
Proof.
  apply in_observations in H.
  rewrite (proj1 (monitor_run v prUrl verbose w fuel)) in H.
  now apply run_waits in H.
Qed.

Lemma every_wait_is_the_interval_witness :
  In (SetTimeout 20000)
     (fst (monitorAllChecksStatus Part000 (Some Example.url) false
             (Example.world Example.threePolls) 2))
  /\ 20000%Z = 20000%Z.
Proof.
  assert (In (SetTimeout 20000)
             (fst (monitorAllChecksStatus Part000 (Some Example.url) false
                     (Example.world Example.threePolls) 2))) as H.
  { vm_compute. tauto. }
  split; [exact H|].
  exact (every_wait_is_the_interval Part000 (Some Example.url) false
           (Example.world Example.threePolls) 2 20000 H).
Defined.

Lemma run_paced (v : EntryPoint) (prUrl : option string) (verbose : bool)
      (w : World) (fuel : nat) (m : Machine) :
  paced false (observations (fst (run v prUrl verbose w fuel m))) = true
  /\ match m with
     | Polling _ => True
     | _ => paced true (observations (fst (run v prUrl verbose w fuel m))) = true
     end.
Proof.
  revert m. induction fuel as [|fuel IH]; intros m; [now destruct m|].
  rewrite run_S. cbn [fst]. rewrite observations_app.
  destruct m as [n|r d ty c| |code]; cbn [step].
  - split; [|exact I].
    pose proof (pollOnce_cases v prUrl verbose w n) as Hc. cbv zeta in Hc.
    pose proof (IH (snd (pollOnce v prUrl verbose w n))) as [IH1 IH2].
    destruct (snd (pollOnce v prUrl verbose w n)); cbn iota beta in Hc.
    + destruct Hc as (_ & [E | E] & _); rewrite E; exact IH1.
    + destruct Hc as (_ & _ & _ & _ & t & msg & E); rewrite E; exact IH2.
    + destruct Hc as (_ & r & t & msg & _ & _ & E); rewrite E; exact IH2.
    + destruct Hc as ([E | E] & _); rewrite E; [exact IH1 | exact IH2].
  - destruct (notifyOnce_observations v w r d ty c) as (t & E). rewrite E.
    cbn [snd notifyOnce].
    destruct (IH (Notifying r d ty (S c))) as [IH1 _]. split; exact IH1.
  - destruct (IH Returned) as [IH1 IH2]. split; [exact IH1 | exact IH2].
  - destruct (IH (Exited code)) as [IH1 IH2]. split; [exact IH1 | exact IH2].
Qed.

(** The monitor never fetches twice without a wait in between, in any of
    the three files and on any input. *)
Theorem fetches_are_paced
        (v : EntryPoint) (prUrl : option string) (verbose : bool) (w : World)
        (fuel : nat) :
  paced false (observations (fst (monitorAllChecksStatus v prUrl verbose w fuel)))
  = true.
Proof.
  rewrite (proj1 (monitor_run v prUrl verbose w fuel)).
  apply run_paced.
Qed.

Lemma run_quiet (v : EntryPoint) (prUrl : option string) (verbose : bool)
      (w : World) (fuel n : nat) :
  (forall j r,
      n < j <= n + fuel ->
      snd (checkAllChecksStatus v prUrl true verbose (poll w j))
      = Returns (CheckResult r) ->
      Result.completed r = false) ->
  notificationsSent (fst (run v prUrl verbose w fuel (Polling n))) = [].
Proof.
  revert n. induction fuel as [|fuel IH]; intros n H; [reflexivity|].
  rewrite run_Polling. cbn [fst]. unfold notificationsSent in *.
  rewrite observations_app, filter_app.
  pose proof (pollOnce_cases v prUrl verbose w n) as Hc. cbv zeta in Hc.
  destruct (snd (pollOnce v prUrl verbose w n)) as [m|r d ty c| |code];
    cbn iota beta in Hc.
  - destruct Hc as (-> & Ho & _). rewrite IH by (intros j r Hj; apply H; lia).
    destruct Ho as [-> | ->]; reflexivity.
  - destruct Hc as (_ & _ & Hr & Hd & _).
    rewrite (H (S n) r) in Hd by (lia || exact Hr). discriminate.
  - destruct Hc as (_ & r & t & msg & Hr & Hd & _).
    rewrite (H (S n) r) in Hd by (lia || exact Hr). discriminate.
  - destruct Hc as (Ho & _). rewrite run_Exited.
    destruct Ho as [-> | ->]; reflexivity.
Qed.

(** No notification is sent as long as no poll has returned a snapshot
    with all checks completed: neither errors nor pending checks notify. *)
Theorem no_notification_before_completion
        (v : EntryPoint) (prUrl : option string) (verbose : bool) (w : World)
        (fuel : nat)
        (H : forall j r,
            1 <= j <= fuel ->
            snd (checkAllChecksStatus v prUrl true verbose (poll w j))
            = Returns (CheckResult r) ->
            Result.completed r = false) :
  notificationsSent (fst (monitorAllChecksStatus v prUrl verbose w fuel)) = [].
Proof.
  unfold notificationsSent.
  rewrite (proj1 (monitor_run v prUrl verbose w fuel)).
  apply run_quiet. intros j r Hj. apply H. lia.
Qed.

Lemma no_notification_before_completion_witness :
  notificationsSent
    (fst (monitorAllChecksStatus GithubPrMonitorJs (Some Example.url) false
            (Example.world Example.threePolls) 2))
  = [].
Proof.
  apply (no_notification_before_completion GithubPrMonitorJs (Some Example.url)
           false (Example.world Example.threePolls) 2).
  intros j r Hj. assert (j = 1 \/ j = 2) as [-> | ->] by lia;
    intros [= <-]; reflexivity.
Defined.

(** ** A reference that does not parse, in monitor mode *)

Lemma run_invalid (v : EntryPoint) (url : string) (verbose : bool) (w : World)
      (fuel n : nat) :
  v <> GithubPrMonitorJs ->
  url <> EmptyString -> matchPull url = None ->
  observations (fst (run v (Some url) verbose w fuel (Polling n)))
  = repeat (Waited interval) fuel
  /\ snd (run v (Some url) verbose w fuel (Polling n)) = Polling (n + fuel).
Proof.
  intros Hv Hne Hm. revert n. induction fuel as [|fuel IH]; intros n.
  - simpl. now rewrite Nat.add_0_r.
  - pose proof (checkAllChecksStatus_invalid v (Some url) true verbose
                  (poll w (S n)) url (supplied_url v url _ Hne) Hm) as Hc.
    assert (snd (checkAllChecksStatus v (Some url) true verbose (poll w (S n)))
            = Returns ErrorResult) as He by now rewrite Hc.
    pose proof (pollOnce_error v (Some url) verbose w n He) as Hp.
    rewrite Hc in Hp. rewrite run_Polling, Hp. cbn [fst snd].
    assert (errorBranch v (S n)
            = ((ConsoleLog "Error occurred, will retry in 20 seconds..."
                :: waitForNextCheck)%list, Polling (S n))) as ->
        by (destruct v; [reflexivity | congruence | reflexivity]).
    cbn [fst snd]. destruct (IH (S n)) as [Ho Hs].
    rewrite observations_app, observations_header, observations_app, Ho, Hs. split.
    + reflexivity.
    + f_equal. lia.
Qed.

(** In monitor mode a supplied reference that does not parse is never
    fetched.  [index.js] and the unnamed variant report it and wait, turn
    after turn, without end; [github-pr-monitor.js] ends the process with
    code 1 in the first turn. *)
Theorem unparsable_reference_in_monitor_mode
        (v : EntryPoint) (url : string) (verbose : bool) (w : World) (fuel : nat)
        (Hne : url <> EmptyString) (Hm : matchPull url = None) :
  let trace := fst (monitorAllChecksStatus v (Some url) verbose w fuel) in
  let final := snd (monitorAllChecksStatus v (Some url) verbose w fuel) in
  match v with
  | IndexJs | Part000 =>
      observations trace = repeat (Waited 20000) fuel /\ final = Polling fuel
  | GithubPrMonitorJs =>
      observations trace = [] /\ (0 < fuel -> final = Exited 1)
  end.
Proof.
  intros trace final. unfold trace, final.
  destruct (monitor_run v (Some url) verbose w fuel) as [-> ->].
  destruct v.
  - apply (run_invalid IndexJs url verbose w fuel 0); [discriminate | easy | easy].
  - destruct fuel as [|fuel]; [split; [reflexivity | lia]|].
    pose proof (checkAllChecksStatus_invalid GithubPrMonitorJs (Some url) true
                  verbose (poll w 1) url (supplied_url _ url _ Hne) Hm) as Hc.
    assert (snd (checkAllChecksStatus GithubPrMonitorJs (Some url) true verbose
                   (poll w 1)) = Returns ErrorResult) as He by now rewrite Hc.
    pose proof (pollOnce_error GithubPrMonitorJs (Some url) verbose w 0 He) as Hp.
    rewrite Hc in Hp. rewrite run_Polling, Hp. cbn [fst snd errorBranch].
    rewrite run_Exited. split; [reflexivity | reflexivity].
  - apply (run_invalid Part000 url verbose w fuel 0); [discriminate | easy | easy].
Qed.

Lemma unparsable_reference_in_monitor_mode_witness :
  snd (monitorAllChecksStatus IndexJs (Some "--verbose") false
         (Example.world Example.threePolls) 7)
  = Polling 7.
Proof.
  destruct (unparsable_reference_in_monitor_mode IndexJs "--verbose" false
              (Example.world Example.threePolls) 7) as [_ H];
    [discriminate | reflexivity | exact H].
Defined.

(** ** Ending the process *)

Lemma completedBranch_no_exit (v : EntryPoint) (duration : string) (n : nat)
      (r : Result.t) :
  existsb isProcessExit (fst (completedBranch v duration n r)) = false.
Proof.
  unfold completedBranch, summaryLines, sendNotification, repeatBanner. cbn [fst].
  rewrite !existsb_app.
  destruct v, (Result.hasFailures r),
    (0 <? List.length (Summary.completed (Result.summary r)))%nat,
    (0 <? List.length (Summary.failed (Result.summary r)))%nat; reflexivity.
Qed.

Lemma progressLines_no_exit (v : EntryPoint) (r : Result.t) :
  existsb isProcessExit (progressLines v r ++ waitForNextCheck) = false.
Proof.
  unfold progressLines. rewrite !existsb_app.
  destruct (0 <? List.length (Summary.pending (Result.summary r)))%nat,
    (0 <? List.length (Summary.failed (Result.summary r)))%nat; reflexivity.
Qed.

Lemma header_no_exit (w : World) (n : nat) (out : list Event) :
  existsb isProcessExit (pollHeader w n :: out) = existsb isProcessExit out.
Proof. reflexivity. Qed.

(** A turn of the polling loop that ends the process does so with its last
    event; any other turn does not call [process.exit]. *)
Lemma pollOnce_exit (v : EntryPoint) (prUrl : option string) (verbose : bool)
      (w : World) (n : nat) :
  match snd (pollOnce v prUrl verbose w n) with
  | Exited code =>
      exists pre,
        fst (pollOnce v prUrl verbose w n) = (pre ++ [ProcessExit code])%list
        /\ existsb isProcessExit pre = false
  | _ => existsb isProcessExit (fst (pollOnce v prUrl verbose w n)) = false
  end.
Proof.
  pose proof (poll_events v prUrl true verbose (poll w (S n))) as He.
  unfold pollOnce.
  destruct (checkAllChecksStatus v prUrl true verbose (poll w (S n)))
    as [out [code|[|r]]]; cbn [fst snd] in He.
  - destruct He as (-> & _). cbn [fst snd].
    exists [pollHeader w (S n)]. split; reflexivity.
  - destruct v; cbn [errorBranch fst snd].
    + simpl. rewrite existsb_app, He. reflexivity.
    + exists (pollHeader w (S n) :: out ++ [ConsoleLog "Error occurred true"])%list.
      split; [simpl; now rewrite <- app_assoc|].
      simpl. rewrite existsb_app, He. reflexivity.
    + simpl. rewrite existsb_app, He. reflexivity.
  - destruct (Result.completed r).
    + pose proof (completedBranch_no_exit v
                    (formatDuration (startTime w) (endTime w (S n))) (S n) r) as Hb.
      destruct (completedBranch v (formatDuration (startTime w) (endTime w (S n)))
                  (S n) r) as [after next] eqn:E.
      assert (next = Returned \/ exists d ty, next = Notifying r d ty 0) as Hn.
      { unfold completedBranch in E. injection E as _ <-.
        destruct v; eauto. }
      cbn [fst snd] in *.
      assert (existsb isProcessExit (pollHeader w (S n) :: out ++ after) = false)
        as Hall by (simpl; now rewrite existsb_app, He, Hb).
      destruct Hn as [-> | (d & ty & ->)]; exact Hall.
    + cbn [fst snd]. rewrite header_no_exit.
      now rewrite existsb_app, He, progressLines_no_exit.
Qed.

Lemma notifyOnce_no_exit (v : EntryPoint) (w : World) (r : Result.t)
      (duration type : string) (count : nat) :
  existsb isProcessExit (fst (notifyOnce v w r duration type count)) = false.
Proof.
  unfold notifyOnce, sendNotification. cbn [fst]. now destruct v.
Qed.

Lemma run_exit (v : EntryPoint) (prUrl : option string) (verbose : bool)
      (w : World) (fuel : nat) (m : Machine) :
  match snd (run v prUrl verbose w fuel m) with
  | Exited code =>
      m = Exited code
      \/ exists pre,
          fst (run v prUrl verbose w fuel m) = (pre ++ [ProcessExit code])%list
          /\ existsb isProcessExit pre = false
  | _ => existsb isProcessExit (fst (run v prUrl verbose w fuel m)) = false
  end.
Proof.
  revert m. induction fuel as [|fuel IH]; intros m.
  - simpl. destruct m; auto.
  - destruct m as [n|r d ty c| |code].
    + rewrite run_Polling. cbn [fst snd].
      pose proof (pollOnce_exit v prUrl verbose w n) as Hp.
      pose proof (IH (snd (pollOnce v prUrl verbose w n))) as Hr.
      destruct (snd (pollOnce v prUrl verbose w n)) as [n'|r d ty c| |code].
      * destruct (snd (run v prUrl verbose w fuel (Polling n'))) as [| | |code];
          try (now rewrite existsb_app, Hp, Hr).
        right. destruct Hr as [Hr | (pre & -> & Hpre)]; [discriminate|].
        exists (fst (pollOnce v prUrl verbose w n) ++ pre)%list.
        split; [now rewrite app_assoc | now rewrite existsb_app, Hp, Hpre].
      * destruct (snd (run v prUrl verbose w fuel (Notifying r d ty c)))
          as [| | |code]; try (now rewrite existsb_app, Hp, Hr).
        right. destruct Hr as [Hr | (pre & -> & Hpre)]; [discriminate|].
        exists (fst (pollOnce v prUrl verbose w n) ++ pre)%list.
        split; [now rewrite app_assoc | now rewrite existsb_app, Hp, Hpre].
      * rewrite run_Returned. cbn [fst snd]. now rewrite app_nil_r.
      * rewrite run_Exited. cbn [fst snd]. right.
        destruct Hp as (pre & -> & Hpre). exists pre. now rewrite app_nil_r.
    + rewrite run_S. cbn [step snd fst].
      pose proof (notifyOnce_no_exit v w r d ty c) as Hp.
      pose proof (IH (snd (notifyOnce v w r d ty c))) as Hr.
      cbn [notifyOnce snd] in Hr |- *.
      destruct (snd (run v prUrl verbose w fuel (Notifying r d ty (S c))))
        as [| | |code]; try (now rewrite existsb_app, Hp, Hr).
      right. destruct Hr as [Hr | (pre & -> & Hpre)]; [discriminate|].
      exists (fst (notifyOnce v w r d ty c) ++ pre)%list.
      split; [now rewrite app_assoc | now rewrite existsb_app, Hp, Hpre].
    + now rewrite run_Returned.
    + rewrite run_Exited. now left.
Qed.

Lemma run_exit_code (v : EntryPoint) (prUrl : option string) (verbose : bool)
      (w : World) (fuel n : nat) (code : Z) :
  snd (run v prUrl verbose w fuel (Polling n)) = Exited code ->
  (v = GithubPrMonitorJs /\ code = 1%Z
   /\ exists j, n < j <= n + fuel
                /\ snd (checkAllChecksStatus v prUrl true verbose (poll w j))
                   = Returns ErrorResult)
  \/ (v <> IndexJs /\ truthy prUrl = false
      /\ exists j, n < j <= n + fuel /\ selection (poll w j) = SelectionExits code).
Proof.
  revert n. induction fuel as [|fuel IH]; intros n; [discriminate|].
  rewrite run_Polling. cbn [snd].
  pose proof (pollOnce_cases v prUrl verbose w n) as Hc. cbv zeta in Hc.
  destruct (snd (pollOnce v prUrl verbose w n)) as [m|r d ty c| |code'];
    cbn iota beta in Hc.
  - destruct Hc as (-> & _). intros H. apply IH in H.
    destruct H as [(Hv & Hcode & j & Hj & Hr) | (Hv & Hu & j & Hj & Hs)].
    + left. repeat split; auto. exists j. split; [lia | exact Hr].
    + right. repeat split; auto. exists j. split; [lia | exact Hs].
  - destruct (run_Notifying v prUrl verbose w r d ty fuel c) as [_ ->].
    discriminate.
  - rewrite run_Returned. discriminate.
  - rewrite run_Exited. intros [= ->].
    destruct Hc as (_ & [(Hv & Hcode & Hr) | Hr]).
    + left. repeat split; auto. exists (S n). split; [lia | exact Hr].
    + pose proof (poll_events v prUrl true verbose (poll w (S n))) as He.
      rewrite Hr in He. destruct He as (_ & Hs & Hu & Hv).
      right. repeat split; auto. exists (S n). split; [lia | exact Hs].
Qed.

Lemma run_completion (v : EntryPoint) (prUrl : option string) (verbose : bool)
      (w : World) (fuel n : nat) :
  match snd (run v prUrl verbose w fuel (Polling n)) with
  | Returned =>
      v <> GithubPrMonitorJs
      /\ exists j r,
          n < j <= n + fuel
          /\ snd (checkAllChecksStatus v prUrl true verbose (poll w j))
             = Returns (CheckResult r)
          /\ Result.completed r = true
  | Notifying r _ _ _ =>
      v = GithubPrMonitorJs
      /\ exists j,
          n < j <= n + fuel
          /\ snd (checkAllChecksStatus v prUrl true verbose (poll w j))
             = Returns (CheckResult r)
          /\ Result.completed r = true
  | Polling _ | Exited _ => True
  end.
Proof.
  revert n. induction fuel as [|fuel IH]; intros n; [exact I|].
  rewrite run_Polling. cbn [snd].
  pose proof (pollOnce_cases v prUrl verbose w n) as Hc. cbv zeta in Hc.
  destruct (snd (pollOnce v prUrl verbose w n)) as [m|r d ty c| |code];
    cbn iota beta in Hc.
  - destruct Hc as (-> & _). specialize (IH (S n)).
    destruct (snd (run v prUrl verbose w fuel (Polling (S n))))
      as [m|r d ty c| |code]; try exact I.
    + destruct IH as (Hv & j & Hj & Hr & Hd). split; [exact Hv|].
      exists j. split; [lia | now split].
    + destruct IH as (Hv & j & r & Hj & Hr & Hd). split; [exact Hv|].
      exists j, r. split; [lia | now split].
  - destruct (run_Notifying v prUrl verbose w r d ty fuel c) as [_ ->].
    destruct Hc as (Hv & _ & Hr & Hd & _). split; [exact Hv|].
    exists (S n). split; [lia | now split].
  - rewrite run_Returned. cbn [snd].
    destruct Hc as (Hv & r & _ & _ & Hr & Hd & _). split; [exact Hv|].
    exists (S n), r. split; [lia | now split].
  - rewrite run_Exited. exact I.
Qed.

(** The monitor returns, so that the script runs off its end with exit
    code 0, only in [index.js] and the unnamed variant, only after a poll
    that found all checks completed, and without any call of
    [process.exit].  [github-pr-monitor.js] never returns: after such a
    poll it is in the loop of repeated notifications, where the process
    has not ended. *)
Theorem monitor_returns_only_after_completion
        (v : EntryPoint) (prUrl : option string) (verbose : bool) (w : World)
        (fuel : nat) :
  let trace := fst (monitorAllChecksStatus v prUrl verbose w fuel) in
  let final := snd (monitorAllChecksStatus v prUrl verbose w fuel) in
  match final with
  | Returned =>
      exitCode final = Some 0%Z
      /\ v <> GithubPrMonitorJs
      /\ existsb isProcessExit trace = false
      /\ exists j r,
          1 <= j <= fuel
          /\ snd (checkAllChecksStatus v prUrl true verbose (poll w j))
             = Returns (CheckResult r)
          /\ Result.completed r = true
  | Notifying r _ _ _ =>
      exitCode final = None
      /\ v = GithubPrMonitorJs
      /\ existsb isProcessExit trace = false
      /\ exists j,
          1 <= j <= fuel
          /\ snd (checkAllChecksStatus v prUrl true verbose (poll w j))
             = Returns (CheckResult r)
          /\ Result.completed r = true
  | Polling _ | Exited _ => True
  end.
Proof.
  intros trace final.
  pose proof (run_completion v prUrl verbose w fuel 0) as Hc.
  pose proof (run_exit v prUrl verbose w fuel (Polling 0)) as He.
  assert (final = snd (run v prUrl verbose w fuel (Polling 0))) as Ef
      by apply monitor_run.
  assert (existsb isProcessExit trace
          = existsb isProcessExit (fst (run v prUrl verbose w fuel (Polling 0))))
    as Et.
  { unfold trace, monitorAllChecksStatus.
    now destruct (run v prUrl verbose w fuel (Polling 0)). }
  rewrite <- Ef in Hc, He. rewrite <- Et in He.
  destruct final as [m|r d ty c| |code]; try exact I.
  - destruct Hc as (Hv & j & Hj & Hr & Hd).
    repeat split; auto. exists j. split; [lia | now split].
  - destruct Hc as (Hv & j & r & Hj & Hr & Hd).
    repeat split; auto. exists j, r. split; [lia | now split].
Qed.

(** A run of the monitor calls [process.exit] only in two ways:
    [github-pr-monitor.js] with code 1 after a poll that returned the error
    result, and, when no URL was given on the command line,
    [github-pr-monitor.js] or the unnamed variant with the code with which
    the interactive selection exits.  The call is then the last event of
    the run and the only such call.  [index.js] never calls it, and a run
    that has not exited this way holds no such call. *)
Theorem process_exit_calls
        (v : EntryPoint) (prUrl : option string) (verbose : bool) (w : World)
        (fuel : nat) :
  let trace := fst (monitorAllChecksStatus v prUrl verbose w fuel) in
  let final := snd (monitorAllChecksStatus v prUrl verbose w fuel) in
  match final with
  | Exited code =>
      v <> IndexJs
      /\ (exists pre,
            trace = (pre ++ [ProcessExit code])%list
            /\ existsb isProcessExit pre = false)
      /\ ((v = GithubPrMonitorJs /\ code = 1%Z
           /\ exists j, 1 <= j <= fuel
                        /\ snd (checkAllChecksStatus v prUrl true verbose (poll w j))
                           = Returns ErrorResult)
          \/ (truthy prUrl = false
              /\ exists j, 1 <= j <= fuel
                           /\ selection (poll w j) = SelectionExits code))
  | Polling _ | Notifying _ _ _ _ | Returned =>
      existsb isProcessExit trace = false
  end.
Proof.
  intros trace final.
  pose proof (run_exit v prUrl verbose w fuel (Polling 0)) as He.
  pose proof (run_exit_code v prUrl verbose w fuel 0) as Hcode.
  unfold trace, final, monitorAllChecksStatus.
  destruct (run v prUrl verbose w fuel (Polling 0)) as [out m].
  cbn [fst snd] in *. destruct m as [k|r d ty c| |code]; try exact He.
  destruct He as [He | (pre & -> & Hpre)]; [discriminate|].
  destruct (Hcode code eq_refl)
    as [(Hv & Hc & j & Hj & Hr) | (Hv & Hu & j & Hj & Hs)].
  - split; [subst v; discriminate|]. split.
    + eexists. split; [rewrite app_assoc; reflexivity|].
      now rewrite existsb_app, Hpre.
    + left. repeat split; auto. exists j. split; [lia | exact Hr].
  - split; [exact Hv|]. split.
    + eexists. split; [rewrite app_assoc; reflexivity|].
      now rewrite existsb_app, Hpre.
    + right. split; [exact Hu|]. exists j. split; [lia | exact Hs].
Qed.

(** ** Single mode *)

Lemma helpLines_observations : observations helpLines = [].
Proof. reflexivity. Qed.

(** Single mode fetches at most once, never waits and never notifies,
    whatever the checks are, also when they are all completed. *)
Theorem single_mode_neither_waits_nor_notifies
        (v : EntryPoint) (argv : list string) (w : World) (fuel : nat)
        (H : includes argv "--single" = true) :
  observations (fst (main v argv w fuel)) = []
  \/ observations (fst (main v argv w fuel)) = [Fetched].
Proof.
  assert (forall prUrl verbose,
             observations (fst (singleMode v prUrl verbose (poll w 1))) = []
             \/ observations (fst (singleMode v prUrl verbose (poll w 1))) = [Fetched])
    as Hs.
  { intros prUrl verbose. unfold singleMode.
    pose proof (poll_observations v prUrl true verbose (poll w 1)) as Ho.
    now destruct (checkAllChecksStatus v prUrl true verbose (poll w 1)). }
  unfold main. rewrite H.
  destruct v; try destruct (includes argv "--help" || includes argv "-h");
    try apply Hs; now left.
Qed.

Lemma single_mode_neither_waits_nor_notifies_witness :
  observations
    (fst (main IndexJs ["node"; "index.js"; Example.url; "--single"]
            (Example.world Example.unknownOnly) 9))
  = [Fetched].
Proof.
  destruct (single_mode_neither_waits_nor_notifies IndexJs
              ["node"; "index.js"; Example.url; "--single"]
              (Example.world Example.unknownOnly) 9 eq_refl) as [H | H].
  - discriminate H.
  - exact H.
Defined.

(** ** More on the snapshot *)

Lemma contextOf_not_empty (c : Check) : contextOf c <> EmptyString.
Proof.
  unfold contextOf, orElse. destruct (name c) as [[|a rest]|]; discriminate.
Qed.

Lemma aggregate_result (v : EntryPoint) (showOutput verbose : bool)
      (prNumber : string) (checks : list Check) (r : Result.t) :
  snd (aggregate v showOutput verbose prNumber checks) = CheckResult r ->
  checks <> []
  /\ r = Result.mk
           (forallb (fun c => negb (classifiedAs Pending c)) checks)
           (existsb (classifiedAs Failure) checks)
           checks prNumber
           (Summary.mk (List.length checks) (namesOf Pending checks)
              (namesOf Success checks) (namesOf Failure checks)).
Proof.
  intros H. destruct checks as [|c checks]; [discriminate|].
  assert (c :: checks <> []) as Hne by discriminate.
  rewrite (aggregate_nonempty v showOutput verbose prNumber _ Hne) in H.
  split; [exact Hne | congruence].
Qed.

(** No name in a bucket is the empty string: a check without a name, or
    with an empty one, is listed under a fixed name instead. *)
Theorem bucket_names_are_not_empty
        (v : EntryPoint) (showOutput verbose : bool) (prNumber : string)
        (checks : list Check) (r : Result.t) (bucketName : string)
        (H : snd (aggregate v showOutput verbose prNumber checks) = CheckResult r)
        (Hin : In bucketName
                  (Summary.pending (Result.summary r)
                   ++ Summary.completed (Result.summary r)
                   ++ Summary.failed (Result.summary r))%list) :
  bucketName <> EmptyString
  /\ exists c, In c checks
               /\ bucketName = match name c with
                               | Some (String a rest) => String a rest
                               | _ => "Unknown Check"
                               end.
Proof.
  destruct (aggregate_result _ _ _ _ _ _ H) as [_ ->]. simpl in Hin.
  unfold namesOf in Hin.
  rewrite !in_app_iff, !in_map_iff in Hin.
  assert (exists c, contextOf c = bucketName /\ In c checks) as (c & <- & Hc).
  { destruct Hin as [(c & E & Hc) | [(c & E & Hc) | (c & E & Hc)]];
      apply filter_In in Hc; exists c; tauto. }
  split; [apply contextOf_not_empty|]. exists c. split; [exact Hc | reflexivity].
Qed.

Lemma bucket_names_are_not_empty_witness :
  "Unknown Check" <> EmptyString.
Proof.
  apply (bucket_names_are_not_empty IndexJs true false "1"
           [mkCheck (Some "pending") None None None]
           (Result.mk false false [mkCheck (Some "pending") None None None] "1"
              (Summary.mk 1 ["Unknown Check"] [] []))
           "Unknown Check" eq_refl).
  simpl. now left.
Defined.

Lemma namesOf_app (k : Classification) (a b : list Check) :
  namesOf k (a ++ b) = (namesOf k a ++ namesOf k b)%list.
Proof.
  unfold namesOf. now rewrite filter_app, map_app.
Qed.

(** The snapshot of two lists put end to end: the buckets are those of the
    first list followed by those of the second, the totals add up, all
    checks are completed when they are in both, and there are failures
    when there are in either. *)
Theorem aggregate_of_appended_lists
        (v : EntryPoint) (showOutput verbose : bool) (prNumber : string)
        (a b : list Check) (ra rb : Result.t)
        (Ha : snd (aggregate v showOutput verbose prNumber a) = CheckResult ra)
        (Hb : snd (aggregate v showOutput verbose prNumber b) = CheckResult rb) :
  exists r,
    snd (aggregate v showOutput verbose prNumber (a ++ b)) = CheckResult r
    /\ Summary.total (Result.summary r)
       = Summary.total (Result.summary ra) + Summary.total (Result.summary rb)
    /\ Summary.pending (Result.summary r)
       = (Summary.pending (Result.summary ra)
          ++ Summary.pending (Result.summary rb))%list
    /\ Summary.completed (Result.summary r)
       = (Summary.completed (Result.summary ra)
          ++ Summary.completed (Result.summary rb))%list
    /\ Summary.failed (Result.summary r)
       = (Summary.failed (Result.summary ra)
          ++ Summary.failed (Result.summary rb))%list
    /\ Result.completed r = Result.completed ra && Result.completed rb
    /\ Result.hasFailures r = Result.hasFailures ra || Result.hasFailures rb.
Proof.
  destruct (aggregate_result _ _ _ _ _ _ Ha) as [Hna ->].
  destruct (aggregate_result _ _ _ _ _ _ Hb) as [Hnb ->].
  assert (a ++ b <> [])%list as Hne by (destruct a; [congruence | discriminate]).
  eexists. split; [apply aggregate_nonempty; exact Hne|]. simpl.
  now rewrite !namesOf_app, length_app, forallb_app, existsb_app.
Qed.

Lemma aggregate_of_appended_lists_witness :
  exists r,
    snd (aggregate IndexJs true false "123" (Example.notDone ++ Example.doneSuccess))
    = CheckResult r
    /\ Summary.total (Result.summary r) = 4
    /\ Summary.pending (Result.summary r) = ["lint"]
    /\ Summary.completed (Result.summary r) = ["unit"; "lint"; "unit"].
Proof.
  destruct (aggregate_of_appended_lists IndexJs true false "123"
              Example.notDone Example.doneSuccess
              (Result.mk false false Example.notDone "123"
                 (Summary.mk 2 ["lint"] ["unit"] []))
              (Result.mk true false Example.doneSuccess "123"
                 (Summary.mk 2 [] ["lint"; "unit"] []))
              eq_refl eq_refl) as (r & Hr & Ht & Hp & Hc & _).
  exists r. repeat split; assumption.
Defined.

(** With [showOutput] off, a poll for a URL given on the command line
    writes nothing with [console.log]: what it reports goes to
    [console.error] only. *)
Theorem quiet_poll_logs_nothing
        (v : EntryPoint) (prUrl : option string) (verbose : bool) (p : PollInput)
        (H : truthy prUrl = true) :
  existsb isConsoleLog (fst (checkAllChecksStatus v prUrl false verbose p)) = false.
Proof.
  unfold checkAllChecksStatus.
  rewrite (resolvePrUrl_supplied v prUrl p H).
  destruct (matchPull (orElse prUrl EmptyString)) as [prNumber|]; [|reflexivity].
  destruct (gh p) as [message|checks]; [reflexivity|].
  destruct (aggregate_logs v false verbose prNumber checks) as [_ He].
  destruct (aggregate v false verbose prNumber checks) as [out o].
  cbn [fst] in *. now rewrite (He eq_refl).
Qed.

Lemma quiet_poll_logs_nothing_witness :
  existsb isConsoleLog
    (fst (checkAllChecksStatus Part000 (Some Example.url) false true
            (mkPollInput (Selected None) (Parsed Example.notDone))))
  = false.
Proof.
  apply (quiet_poll_logs_nothing Part000 (Some Example.url) true). reflexivity.
Defined.

(** ** The glyph and the buckets *)

Lemma glyph_injective (v : EntryPoint) (p q : Pictograph) :
  glyph v p = glyph v q -> p = q.
Proof.
  destruct v, p, q; try reflexivity; vm_compute; discriminate.
Qed.

(** The glyph tells the bucket: the default glyph is shown exactly for the
    checks that are put in no bucket, the success glyph for the completed
    ones, the pending glyph for the pending ones, and the failure or the
    cancelled glyph for the failed ones. *)
Theorem glyph_tells_the_bucket (v : EntryPoint) (s : string) :
  (getStatusEmoji v s = glyph v QuestionMark <-> classify s = None)
  /\ (getStatusEmoji v s = glyph v CheckMark <-> classify s = Some Success)
  /\ (getStatusEmoji v s = glyph v YellowCircle <-> classify s = Some Pending)
  /\ (getStatusEmoji v s = glyph v CrossMark \/ getStatusEmoji v s = glyph v WhiteCircle
      <-> classify s = Some Failure).
Proof.
  assert (exists p,
             getStatusEmoji v s = glyph v p
             /\ classify s = match p with
                             | CheckMark => Some Success
                             | YellowCircle => Some Pending
                             | CrossMark | WhiteCircle => Some Failure
                             | _ => None
                             end
             /\ In p [CheckMark; YellowCircle; CrossMark; WhiteCircle; QuestionMark])
    as (p & -> & -> & Hp).
  { unfold getStatusEmoji, classify, includes.
    remember (toLowerCase s) as l eqn:El. clear El s.
    split_on_word l;
      try (eexists; split; [reflexivity|]; split; [reflexivity|]; simpl; tauto).
    simpl existsb.
    repeat match goal with
           | Hne : ?a <> ?b |- _ =>
               apply String.eqb_neq in Hne; rewrite Hne; clear Hne
           end.
    exists QuestionMark. simpl. tauto. }
  simpl in Hp.
  repeat split; intros H;
    try (destruct H as [H | H]);
    try (apply glyph_injective in H; subst p; reflexivity);
    destruct Hp as [<- | [<- | [<- | [<- | [<- | []]]]]];
    try discriminate; auto.
Qed.

(** ** Numbers typed at the prompt *)

Lemma digit_cases (c : ascii) :
  isDigit c = true ->
  In c ["0"; "1"; "2"; "3"; "4"; "5"; "6"; "7"; "8"; "9"]%char.
Proof.
  destruct c as [[] [] [] [] [] [] [] []]; intros H; try discriminate H;
    simpl; tauto.
Qed.

Lemma whiteSpaceLength_digit (c : ascii) (r : string) :
  isDigit c = true \/ c = "-"%char -> whiteSpaceLength (String c r) = 0.
Proof.
  intros [H | ->].
  - destruct (digit_cases c H) as [<-|[<-|[<-|[<-|[<-|[<-|[<-|[<-|[<-|[<-|[]]]]]]]]]]];
      destruct r as [|c2 [|c3 r3]]; reflexivity.
  - destruct r as [|c2 [|c3 r3]]; reflexivity.
Qed.

Lemma trimStart_digit (c : ascii) (r : string) :
  isDigit c = true \/ c = "-"%char -> trimStart (String c r) = String c r.
Proof.
  intros H. unfold trimStart. cbn [trimStartFrom].
  now rewrite (whiteSpaceLength_digit c r H).
Qed.

Lemma allDigits_uint (d : Decimal.uint) :
  allDigits (NilEmpty.string_of_uint d) = true.
Proof.
  induction d; simpl; auto.
Qed.

Lemma parseDigits_acc (d : Decimal.uint) (p : positive) :
  parseDigits 10 (Some (Zpos p)) (NilEmpty.string_of_uint d)
  = Some (Zpos (Pos.of_uint_acc d p)).
Proof.
  revert p. induction d as [|d IH|d IH|d IH|d IH|d IH|d IH|d IH|d IH|d IH|d IH];
    intros p; [reflexivity|..];
    cbn [NilEmpty.string_of_uint parseDigits Pos.of_uint_acc];
    match goal with
    | |- context [digitValue 10 ?c] =>
        let e := eval vm_compute in (digitValue 10 c) in
        change (digitValue 10 c) with e
    end;
    cbv iota beta; rewrite <- IH; do 2 f_equal; lia.
Qed.

Lemma parseDigits_zero (d : Decimal.uint) :
  parseDigits 10 (Some 0%Z) (NilEmpty.string_of_uint d)
  = Some (Z.of_N (Pos.of_uint d)).
Proof.
  induction d as [|d IH|d IH|d IH|d IH|d IH|d IH|d IH|d IH|d IH|d IH];
    [reflexivity|exact IH|..];
    cbn [NilEmpty.string_of_uint parseDigits Pos.of_uint];
    match goal with
    | |- context [digitValue 10 ?c] =>
        let e := eval vm_compute in (digitValue 10 c) in
        change (digitValue 10 c) with e
    end;
    cbv iota beta; apply parseDigits_acc.
Qed.

Lemma parseDigits_uint (d : Decimal.uint) :
  d <> Decimal.Nil ->
  parseDigits 10 None (NilEmpty.string_of_uint d) = Some (Z.of_N (Pos.of_uint d)).
Proof.
  destruct d; intros H; [congruence|..];
    cbn [NilEmpty.string_of_uint parseDigits Pos.of_uint];
    match goal with
    | |- context [digitValue 10 ?c] =>
        let e := eval vm_compute in (digitValue 10 c) in
        change (digitValue 10 c) with e
    end;
    cbv iota beta; [apply parseDigits_zero|..]; apply parseDigits_acc.
Qed.

(** A string of decimal digits is read in radix 10 from its first
    character on. *)
Lemma parseInt_digits (c : ascii) (r : string) :
  isDigit c = true -> allDigits r = true ->
  parseInt (String c r)
  = match parseDigits 10 None (String c r) with
    | Some n => Some (1 * n)%Z
    | None => None
    end.
Proof.
  intros Hc Hr. unfold parseInt. rewrite trimStart_digit by now left.
  destruct (digit_cases c Hc)
    as [<-|[<-|[<-|[<-|[<-|[<-|[<-|[<-|[<-|[<-|[]]]]]]]]]]]; try reflexivity.
  destruct r as [|c2 r2]; [reflexivity|].
  simpl in Hr. apply andb_true_iff in Hr as [Hc2 _].
  destruct (digit_cases c2 Hc2)
    as [<-|[<-|[<-|[<-|[<-|[<-|[<-|[<-|[<-|[<-|[]]]]]]]]]]]; reflexivity.
Qed.

Lemma uint_string (d : Decimal.uint) :
  d <> Decimal.Nil ->
  exists c r,
    NilEmpty.string_of_uint d = String c r
    /\ isDigit c = true /\ allDigits r = true.
Proof.
  intros H. pose proof (allDigits_uint d) as Ha.
  destruct d; [congruence|..]; simpl in *; eexists _, _;
    (split; [reflexivity | split; [reflexivity | exact Ha]]).
Qed.

Lemma parseInt_uint (d : Decimal.uint) :
  d <> Decimal.Nil ->
  parseInt (NilEmpty.string_of_uint d) = Some (Z.of_uint d).
Proof.
  intros H. destruct (uint_string d H) as (c & r & E & Hc & Hr).
  rewrite E, (parseInt_digits c r Hc Hr), <- E, (parseDigits_uint d H).
  unfold Z.of_uint. f_equal. lia.
Qed.

Lemma showZ_nonneg (z : Z) :
  (0 <= z)%Z ->
  exists d, d <> Decimal.Nil /\ showZ z = NilEmpty.string_of_uint d
            /\ Z.of_uint d = z.
Proof.
  intros Hz. destruct z as [|p|p]; [| |lia].
  - exists (Decimal.D0 Decimal.Nil). repeat split. discriminate.
  - exists (Pos.to_uint p).
    pose proof (DecimalPos.Unsigned.to_uint_nonnil p) as Hn.
    split; [exact Hn|]. split.
    + unfold showZ. simpl. destruct (Pos.to_uint p); [congruence|..]; reflexivity.
    + exact (DecimalZ.of_to (Zpos p)).
Qed.

(** Reading back a printed non-negative number gives the number. *)
Lemma parseInt_showZ (z : Z) : (0 <= z)%Z -> parseInt (showZ z) = Some z.
Proof.
  intros Hz. destruct (showZ_nonneg z Hz) as (d & Hd & -> & <-).
  now apply parseInt_uint.
Qed.

Lemma showZ_not_quit (z : Z) : (0 <= z)%Z -> isQuit (showZ z) = false.
Proof.
  intros Hz. destruct (showZ_nonneg z Hz) as (d & Hd & -> & _).
  destruct (uint_string d Hd) as (c & r & -> & Hc & _).
  destruct (digit_cases c Hc)
    as [<-|[<-|[<-|[<-|[<-|[<-|[<-|[<-|[<-|[<-|[]]]]]]]]]]]; reflexivity.
Qed.

(** ** Choosing a pull request *)

(** Typing the number shown beside a pull request in the listing selects
    that pull request. *)
Theorem listed_number_selects_its_pull_request
        (prs : list PullRequest.t) (index : nat) (pr : PullRequest.t)
        (H : nth_error prs index = Some pr) :
  snd (promptUserForPR prs (showNat (index + 1)))
  = Selected (Some (PullRequest.url pr)).
Proof.
  assert (index < List.length prs) as Hlt
      by (apply nth_error_Some; congruence).
  unfold promptUserForPR, showNat.
  rewrite showZ_not_quit, parseInt_showZ by lia.
  destruct (Z.ltb_spec (Z.of_nat (index + 1)) 1) as [Hlo | _]; [lia|].
  destruct (Z.ltb_spec (Z.of_nat (List.length prs)) (Z.of_nat (index + 1)))
    as [Hhi | _]; [lia|].
  cbn [orb].
  replace (Z.to_nat (Z.of_nat (index + 1) - 1)) with index by lia.
  now rewrite H.
Qed.

Lemma listed_number_selects_its_pull_request_witness :
  snd (promptUserForPR Sample.prs "3")
  = Selected (Some "https://github.com/owner/repo/pull/125").
Proof.
  exact (listed_number_selects_its_pull_request Sample.prs 2
           (PullRequest.mk 125 "Update documentation"
              "https://github.com/owner/repo/pull/125" "bob.wilson")
           eq_refl).
Defined.

Lemma promptUserForPR_cases (prs : list PullRequest.t) (answer : string) :
  match snd (promptUserForPR prs answer) with
  | Selected None => isQuit answer = true
  | Selected (Some u) =>
      isQuit answer = false
      /\ exists n pr,
          parseInt answer = Some n
          /\ (1 <= n <= Z.of_nat (List.length prs))%Z
          /\ nth_error prs (Z.to_nat (n - 1)) = Some pr
          /\ u = PullRequest.url pr
  | SelectionExits code =>
      code = 1%Z
      /\ isQuit answer = false
      /\ (parseInt answer = None
          \/ exists n,
              parseInt answer = Some n
              /\ (n < 1 \/ Z.of_nat (List.length prs) < n)%Z)
  end.
Proof.
  unfold promptUserForPR.
  destruct (isQuit answer); [reflexivity|].
  destruct (parseInt answer) as [n|]; [|cbn [snd]; auto].
  destruct (Z.ltb_spec n 1) as [Hlo | Hlo].
  { cbn [orb snd]. repeat split. right. exists n. split; [reflexivity | lia]. }
  destruct (Z.ltb_spec (Z.of_nat (List.length prs)) n) as [Hhi | Hhi].
  { cbn [orb snd]. repeat split. right. exists n. split; [reflexivity | lia]. }
  cbn [orb].
  destruct (nth_error prs (Z.to_nat (n - 1))) as [pr|] eqn:E.
  - cbn [snd]. split; [reflexivity|]. exists n, pr. repeat split; auto.
  - pose proof (proj1 (nth_error_None prs (Z.to_nat (n - 1))) E). lia.
Qed.

(** The prompt ends in one of three ways: on [q] or [quit], in any letter
    case, with no URL; on an answer that reads as a number between 1 and
    the number of pull requests, with the URL of the pull request at that
    place; and on any other answer with exit code 1. *)
Theorem promptUserForPR_outcomes (prs : list PullRequest.t) (answer : string) :
  match snd (promptUserForPR prs answer) with
  | Selected None => isQuit answer = true
  | Selected (Some u) =>
      isQuit answer = false
      /\ exists n pr,
          parseInt answer = Some n
          /\ (1 <= n <= Z.of_nat (List.length prs))%Z
          /\ nth_error prs (Z.to_nat (n - 1)) = Some pr
          /\ u = PullRequest.url pr
  | SelectionExits code =>
      code = 1%Z
      /\ isQuit answer = false
      /\ (parseInt answer = None
          \/ exists n,
              parseInt answer = Some n
              /\ (n < 1 \/ Z.of_nat (List.length prs) < n)%Z)
  end.
Proof. exact (promptUserForPR_cases prs answer). Qed.

Lemma string_app_assoc (a b c : string) : (a ++ b) ++ c = a ++ b ++ c.
Proof.
  induction a as [|x a IH]; [reflexivity|]. simpl. now rewrite IH.
Qed.

Lemma afterSegment_some (first : bool) (s r : string) :
  afterSegment first s = Some r -> exists seg, s = seg ++ String "/" r.
Proof.
  revert first. induction s as [|c s IH]; intros first H; [discriminate|].
  simpl in H. destruct (Ascii.eqb_spec c "/") as [-> | _].
  - destruct first; [discriminate|]. injection H as ->. now exists EmptyString.
  - destruct (IH false H) as (seg & ->). now exists (String c seg).
Qed.

Lemma githubPullHere_pullAt (s : string) :
  githubPullHere s = true -> exists n, pullAt n s.
Proof.
  unfold githubPullHere.
  destruct (prefix "github.com/" s) eqn:Hp; [|discriminate].
  apply prefix_split in Hp. simpl String.length in Hp.
  destruct (afterSegment true (substring 11 (String.length s - 11) s))
    as [s1|] eqn:H1; [|discriminate].
  destruct (afterSegment true s1) as [s2|] eqn:H2; [|discriminate].
  intros H. apply andb_true_iff in H as [Hq Hd].
  apply prefix_split in Hq. simpl String.length in Hq.
  destruct (substring 5 (String.length s2 - 5) s2) as [|c t]; [discriminate|].
  destruct (afterSegment_some _ _ _ H1) as (seg1 & E1).
  destruct (afterSegment_some _ _ _ H2) as (seg2 & E2).
  exists (String.length ("github.com/" ++ seg1 ++ String "/" seg2)).
  exists ("github.com/" ++ seg1 ++ String "/" seg2), c, t.
  split; [|split; [exact Hd | reflexivity]].
  rewrite Hp at 1. rewrite E1, E2, Hq.
  rewrite !string_app_assoc. reflexivity.
Qed.

Lemma githubPull_pullAt (s : string) :
  githubPull s = true -> exists n, pullAt n s.
Proof.
  induction s as [|a s IH]; [discriminate|].
  cbn [githubPull]. rewrite orb_true_iff. intros [H | H].
  - now apply githubPullHere_pullAt.
  - destruct (IH H) as (n & Hn). exists (S n). now apply pullAt_S.
Qed.

Lemma fetch_observed (v : EntryPoint) (prUrl : option string)
      (showOutput verbose : bool) (p : PollInput) (url prNumber : string) :
  resolvePrUrl v prUrl p = inr url ->
  matchPull url = Some prNumber ->
  In (ExecSync ("gh pr checks " ++ url ++ " --json name,state,description,link"))
     (fst (checkAllChecksStatus v prUrl showOutput verbose p))
  /\ observations (fst (checkAllChecksStatus v prUrl showOutput verbose p))
     = [Fetched].
Proof.
  intros Hr Hm. unfold checkAllChecksStatus. rewrite Hr, Hm.
  destruct (gh p) as [message|checks].
  - cbn [fst]. rewrite observations_app. split.
    + apply in_or_app. right. now left.
    + now destruct showOutput.
  - pose proof (aggregate_observations v showOutput verbose prNumber checks) as Ho.
    destruct (aggregate v showOutput verbose prNumber checks) as [out o].
    cbn [fst] in *. split.
    + apply in_or_app. right. now left.
    + rewrite observations_app. simpl.
      change (flat_map observe out) with (observations out). rewrite Ho.
      now destruct showOutput.
Qed.

(** A URL that the prompt of [github-pr-monitor.js] accepts is the answer
    as typed, and the check that follows never refuses it: its number can
    be extracted, and the poll goes on to fetch the checks of that URL. *)
Theorem accepted_url_is_fetched (answer u : string)
        (H : snd (GithubPrMonitor.promptForPRUrl answer) = Selected (Some u)) :
  u = answer
  /\ exists prNumber,
      matchPull u = Some prNumber
      /\ forall showOutput verbose g,
          observations
            (fst (checkAllChecksStatus GithubPrMonitorJs None showOutput verbose
                    (mkPollInput (Selected (Some u)) g)))
          = [Fetched].
Proof.
  unfold GithubPrMonitor.promptForPRUrl in H.
  destruct (isQuit answer); [discriminate|].
  destruct (isBlank answer) eqn:Hb; [discriminate|].
  destruct (githubPull answer) eqn:Hg; [|discriminate].
  cbn [negb snd] in H. injection H as <-. split; [reflexivity|].
  destruct (githubPull_pullAt answer Hg) as (n & Hn).
  destruct (matchPull answer) as [prNumber|] eqn:Hm;
    [|now apply matchPull_pullAt in Hn].
  exists prNumber. split; [reflexivity|].
  intros showOutput verbose g.
  apply (fetch_observed GithubPrMonitorJs None showOutput verbose _ answer prNumber);
    [|exact Hm].
  destruct answer as [|c rest]; [discriminate Hb | reflexivity].
Qed.

Lemma accepted_url_is_fetched_witness :
  exists prNumber,
    matchPull "https://github.com/owner/repo/pull/77" = Some prNumber.
Proof.
  destruct (accepted_url_is_fetched "https://github.com/owner/repo/pull/77"
              "https://github.com/owner/repo/pull/77" eq_refl)
    as (_ & prNumber & Hm & _).
  exists prNumber. exact Hm.
Defined.

Lemma pollOnce_trace (v : EntryPoint) (prUrl : option string) (verbose : bool)
      (w : World) (n : nat) :
  exists after,
    fst (pollOnce v prUrl verbose w n)
    = (pollHeader w (S n)
       :: fst (checkAllChecksStatus v prUrl true verbose (poll w (S n)))
       ++ after)%list.
Proof.
  unfold pollOnce.
  destruct (checkAllChecksStatus v prUrl true verbose (poll w (S n))) as [out ret].
  match goal with
  | |- context [let '(after, next) := ?e in _] => destruct e as [after next]
  end.
  now exists after.
Qed.

(** When no URL is given on the command line, the monitor does not
    remember the pull request chosen: every poll chooses again, and
    fetches the checks of the URL chosen in that poll. *)
Theorem pull_request_is_chosen_at_every_poll
        (v : EntryPoint) (verbose : bool) (w : World) (n : nat)
        (u prNumber : string)
        (Hv : v <> IndexJs)
        (Hsel : selection (poll w (S n)) = Selected (Some u))
        (Hne : u <> EmptyString)
        (Hm : matchPull u = Some prNumber) :
  In (ExecSync ("gh pr checks " ++ u ++ " --json name,state,description,link"))
     (fst (pollOnce v None verbose w n)).
Proof.
  assert (resolvePrUrl v None (poll w (S n)) = inr u) as Hr.
  { unfold resolvePrUrl. cbn [truthy]. rewrite Hsel.
    destruct u as [|c rest]; [congruence|]. destruct v; [congruence | |]; reflexivity. }
  destruct (fetch_observed v None true verbose _ u prNumber Hr Hm) as [Hin _].
  destruct (pollOnce_trace v None verbose w n) as (after & ->).
  right. apply in_or_app. now left.
Qed.

Lemma pull_request_is_chosen_at_every_poll_witness :
  let w := Sample.choosing GithubPrMonitorJs
             (fun n => if (n =? 1)%nat then "1" else "2") in
  In (ExecSync
        "gh pr checks https://github.com/owner/repo/pull/123 --json name,state,description,link")
     (fst (pollOnce GithubPrMonitorJs None false w 0))
  /\ In (ExecSync
           "gh pr checks https://github.com/owner/repo/pull/124 --json name,state,description,link")
        (fst (pollOnce GithubPrMonitorJs None false w 1)).
Proof.
  intros w. split.
  - apply (pull_request_is_chosen_at_every_poll GithubPrMonitorJs false w 0
             "https://github.com/owner/repo/pull/123" "123");
      [discriminate | reflexivity | discriminate | reflexivity].
  - apply (pull_request_is_chosen_at_every_poll GithubPrMonitorJs false w 1
             "https://github.com/owner/repo/pull/124" "124");
      [discriminate | reflexivity | discriminate | reflexivity].
Defined.

(** ** The reference, once more *)

Lemma string_app_inv (a b x y : string) :
  String.length a = String.length b -> a ++ x = b ++ y -> a = b /\ x = y.
Proof.
  revert b. induction a as [|c a IH]; intros [|d b] Hl E; try discriminate.
  - now split.
  - simpl in *. injection E as -> E. injection Hl as Hl.
    destruct (IH b Hl E) as [-> ->]. now split.
Qed.

Lemma digit_run_unique (d d' post post' : string) :
  allDigits d = true -> allDigits d' = true ->
  startsWithDigit post = false -> startsWithDigit post' = false ->
  d ++ post = d' ++ post' -> d = d'.
Proof.
  revert d'. induction d as [|c d IH]; intros [|c' d'] Ha Ha' Hp Hp' E;
    simpl in *.
  - reflexivity.
  - subst post. simpl in Hp. apply andb_true_iff in Ha' as [Hc _]. congruence.
  - subst post'. simpl in Hp'. apply andb_true_iff in Ha as [Hc _]. congruence.
  - injection E as -> E.
    apply andb_true_iff in Ha as [_ Ha]. apply andb_true_iff in Ha' as [_ Ha'].
    f_equal. now apply (IH d').
Qed.

(** The capture is the run of digits after the leftmost ["/pull/"] that a
    digit follows: the number is read from the first such place, even when
    the reference holds several. *)
Theorem matchPull_leftmost_digits (pre d post : string)
        (Hne : d <> EmptyString)
        (Hd : allDigits d = true)
        (Hpost : startsWithDigit post = false)
        (Hleft : forall n, n < String.length pre
                           -> ~ pullAt n (pre ++ "/pull/" ++ d ++ post)) :
  matchPull (pre ++ "/pull/" ++ d ++ post) = Some d.
Proof.
  set (s := pre ++ "/pull/" ++ d ++ post) in *.
  assert (pullAt (String.length pre) s) as Hat.
  { destruct d as [|c d]; [congruence|].
    exists pre, c, (d ++ post). simpl in Hd. apply andb_true_iff in Hd as [Hc _].
    repeat split. exact Hc. }
  destruct (matchPull s) as [d'|] eqn:E; [|now apply matchPull_pullAt in Hat].
  destruct (matchPull_capture s d' E) as (Hne' & Hd' & pre' & post' & Es & Hpost' & Hleft').
  assert (pullAt (String.length pre') s) as Hat'.
  { destruct d' as [|c d']; [congruence|].
    exists pre', c, (d' ++ post'). simpl in Hd'.
    apply andb_true_iff in Hd' as [Hc _]. repeat split; [exact Es | exact Hc]. }
  assert (String.length pre = String.length pre') as Hl.
  { destruct (Nat.lt_trichotomy (String.length pre) (String.length pre'))
      as [H | [H | H]]; [|exact H|].
    - now apply Hleft' in H.
    - now apply Hleft in H. }
  unfold s in Es at 1.
  destruct (string_app_inv _ _ _ _ Hl Es) as [_ E2].
  injection E2 as E2.
  f_equal. symmetry. exact (digit_run_unique _ _ _ _ Hd Hd' Hpost Hpost' E2).
Qed.

Lemma matchPull_leftmost_digits_witness :
  matchPull ("https://github.com/o/r" ++ "/pull/" ++ "12" ++ "/pull/34")
  = Some "12".
Proof.
  apply (matchPull_leftmost_digits "https://github.com/o/r" "12" "/pull/34");
    [discriminate | reflexivity | reflexivity |].
  intros n Hn (pre & c & post & E & Hc & Hl).
  simpl in Hn.
  do 22 (destruct n as [|n];
         [destruct pre as [|? pre]; try discriminate Hl;
          repeat (destruct pre as [|? pre]; try discriminate Hl);
          simpl in E; discriminate E|]).
  lia.
Defined.

(** ** The number of checks reported *)

Lemma run_polling_count (v : EntryPoint) (prUrl : option string) (verbose : bool)
      (w : World) (fuel n m : nat) :
  snd (run v prUrl verbose w fuel (Polling n)) = Polling m -> m = n + fuel.
Proof.
  revert n. induction fuel as [|fuel IH]; intros n.
  - simpl. intros [= <-]. lia.
  - rewrite run_Polling. cbn [snd].
    pose proof (pollOnce_cases v prUrl verbose w n) as Hc. cbv zeta in Hc.
    destruct (snd (pollOnce v prUrl verbose w n)) as [k|r d ty c| |code];
      cbn iota beta in Hc.
    + destruct Hc as (-> & _). intros H. apply IH in H. lia.
    + destruct (run_Notifying v prUrl verbose w r d ty fuel c) as [_ ->].
      discriminate.
    + rewrite run_Returned. discriminate.
    + rewrite run_Exited. discriminate.
Qed.

Lemma completedBranch_time_line (v : EntryPoint) (duration : string) (n : nat)
      (r : Result.t) :
  In (ConsoleLog (glyph v Stopwatch ++ "  Total time: " ++ duration ++ " ("
                  ++ showNat n ++ " checks)"))
     (fst (completedBranch v duration n r)).
Proof.
  unfold completedBranch. cbn [fst].
  apply in_or_app. right. apply in_or_app. left.
  destruct (Result.hasFailures r).
  - apply in_or_app. left. right. now left.
  - right. now left.
Qed.

(** The number of checks printed with the total time counts every poll
    made since the start, the polls that ended in an error included. *)
Theorem reported_check_count
        (v : EntryPoint) (prUrl : option string) (verbose : bool) (w : World)
        (k m : nat) (r : Result.t)
        (Hk : snd (monitorAllChecksStatus v prUrl verbose w k) = Polling m)
        (Hdone : snd (checkAllChecksStatus v prUrl true verbose (poll w (S m)))
                 = Returns (CheckResult r))
        (Hc : Result.completed r = true) :
  m = k
  /\ In (ConsoleLog (glyph v Stopwatch ++ "  Total time: "
                     ++ formatDuration (startTime w) (endTime w (S k)) ++ " ("
                     ++ showNat (S k) ++ " checks)"))
        (fst (monitorAllChecksStatus v prUrl verbose w (S k))).
Proof.
  rewrite (proj2 (monitor_run v prUrl verbose w k)) in Hk.
  pose proof (run_polling_count _ _ _ _ _ _ _ Hk) as Hm. simpl in Hm. subst m.
  split; [reflexivity|].
  assert (fst (run v prUrl verbose w (S k) (Polling 0))
          = (fst (run v prUrl verbose w k (Polling 0))
             ++ fst (pollOnce v prUrl verbose w k))%list) as Hrun.
  { replace (S k) with (k + 1) by lia. rewrite run_add, Hk.
    rewrite run_Polling. simpl. now rewrite app_nil_r. }
  unfold monitorAllChecksStatus.
  destruct (run v prUrl verbose w (S k) (Polling 0)) as [out final].
  cbn [fst snd] in *. subst out.
  apply in_or_app. right. apply in_or_app. right.
  unfold pollOnce.
  destruct (checkAllChecksStatus v prUrl true verbose (poll w (S k))) as [out ret].
  simpl in Hdone. subst ret. rewrite Hc.
  pose proof (completedBranch_time_line v
                (formatDuration (startTime w) (endTime w (S k))) (S k) r) as Hin.
  destruct (completedBranch v (formatDuration (startTime w) (endTime w (S k)))
              (S k) r) as [after next].
  cbn [fst] in *. right. apply in_or_app. now right.
Qed.

Lemma reported_check_count_witness :
  In (ConsoleLog (glyphUtf8 Stopwatch ++ "  Total time: 1m 0s (3 checks)"))
     (fst (monitorAllChecksStatus IndexJs (Some Example.url) false
             (Example.world Example.threePolls) 3)).
Proof.
  exact (proj2 (reported_check_count IndexJs (Some Example.url) false
                  (Example.world Example.threePolls) 2 2
                  (Result.mk true false Example.doneSuccess "123"
                     (Summary.mk 2 [] ["lint"; "unit"] []))
                  eq_refl eq_refl eq_refl)).
Defined.

(** ** Where a chosen URL comes from *)

(** The interactive choice yields only the URL of a pull request that [gh
    pr list] printed or, in [github-pr-monitor.js] when there is none, the
    answer typed once it has the form of a pull-request URL.  It ends the
    process only with code 0, in the unnamed variant when there is no open
    pull request, or with code 1, on an answer that selects none of two or
    more. *)
Theorem discover_outcomes
        (v : EntryPoint) (o : string + list PullRequest.t) (answer : string) :
  match snd (discover v o answer) with
  | Selected (Some u) =>
      (exists prs pr, o = inr prs /\ In pr prs /\ u = PullRequest.url pr)
      \/ (v = GithubPrMonitorJs /\ u = answer /\ githubPull answer = true
          /\ (o = inr [] \/ exists message, o = inl message))
  | Selected None => True
  | SelectionExits code =>
      (code = 0%Z /\ v = Part000 /\ o = inr [])
      \/ (code = 1%Z /\ isQuit answer = false
          /\ exists prs, o = inr prs /\ 2 <= List.length prs)
  end.
Proof.
  assert (forall prs,
             2 <= List.length prs ->
             match snd (promptUserForPR prs answer) with
             | Selected (Some u) =>
                 exists pr, In pr prs /\ u = PullRequest.url pr
             | Selected None => True
             | SelectionExits code => code = 1%Z /\ isQuit answer = false
             end) as Hprompt.
  { intros prs _. pose proof (promptUserForPR_cases prs answer) as H.
    destruct (snd (promptUserForPR prs answer)) as [[u|]|code]; [|exact I|tauto].
    destruct H as (_ & n & pr & _ & _ & Hn & ->).
    exists pr. split; [now apply nth_error_In in Hn | reflexivity]. }
  assert (match snd (GithubPrMonitor.promptForPRUrl answer) with
          | Selected (Some u) => u = answer /\ githubPull answer = true
          | Selected None => True
          | SelectionExits _ => False
          end) as Hurl.
  { unfold GithubPrMonitor.promptForPRUrl.
    destruct (isQuit answer); [exact I|].
    destruct (isBlank answer); [exact I|].
    destruct (githubPull answer); cbn [negb snd]; auto. }
  destruct v; [exact I| |].
  - unfold discover, GithubPrMonitor.discover, GithubPrMonitor.getOpenPRs.
    destruct o as [message|[|p1 [|p2 rest]]]; cbn [GithubPrMonitor.selectPR].
    + destruct (GithubPrMonitor.promptForPRUrl answer) as [asked [[u|]|code]];
        cbn [snd] in *; [|exact I|contradiction].
      right. destruct Hurl as [-> Hg]. repeat split; eauto.
    + destruct (GithubPrMonitor.promptForPRUrl answer) as [asked [[u|]|code]];
        cbn [snd] in *; [|exact I|contradiction].
      right. destruct Hurl as [-> Hg]. repeat split; auto.
    + cbn [snd]. left. exists [p1], p1. repeat split. now left.
    + specialize (Hprompt (p1 :: p2 :: rest) ltac:(simpl; lia)).
      destruct (promptUserForPR (p1 :: p2 :: rest) answer) as [asked [[u|]|code]];
        cbn [snd] in *; [|exact I|].
      * left. destruct Hprompt as (pr & Hin & ->). now exists (p1 :: p2 :: rest), pr.
      * right. destruct Hprompt as [-> Hq]. repeat split; auto.
        exists (p1 :: p2 :: rest). split; [reflexivity | simpl; lia].
  - unfold discover, Part.discover, Part.getOpenPRs.
    destruct o as [message|[|p1 [|p2 rest]]]; cbn [Part.selectPR].
    + exact I.
    + cbn [snd]. now left.
    + cbn [snd]. left. exists [p1], p1. repeat split. now left.
    + specialize (Hprompt (p1 :: p2 :: rest) ltac:(simpl; lia)).
      destruct (promptUserForPR (p1 :: p2 :: rest) answer) as [asked [[u|]|code]];
        cbn [snd] in *; [|exact I|].
      * left. destruct Hprompt as (pr & Hin & ->). now exists (p1 :: p2 :: rest), pr.
      * right. destruct Hprompt as [-> Hq]. repeat split; auto.
        exists (p1 :: p2 :: rest). split; [reflexivity | simpl; lia].
Qed.
